(** * Flipper-AC: the timer-driven air-conditioner controller of [ac_app.c]

    A shallow embedding of the application's global state, its three timer
    callbacks, the draw callback and the start-up code, followed by the
    properties of the power-cycle schedule, the turn-on sequencer, the
    countdown and the rendered text. *)

From Stdlib Require Import ZArith List String Ascii Bool Lia.
Import ListNotations.

Local Open Scope string_scope.
Local Open Scope list_scope.
Local Open Scope Z_scope.

(** ** Machine integers

    [uint32_t] values are integers in [0, 2^32); arithmetic that can leave
    the range is reduced modulo [2^32]. *)

Module UInt32.

Definition modulus : Z := 2 ^ 32.

Definition in_range (x : Z) : Prop := 0 <= x < modulus.

Definition wrap (x : Z) : Z := x mod modulus.

Definition sub (a b : Z) : Z := wrap (a - b).

Definition div (a b : Z) : Z := a / b.

End UInt32.

(** ** Constants of the program *)

Definition one_second_interval : Z := 1000.
Definition one_minute_interval : Z := 60000.
Definition one_hour_interval : Z := 3600000.
Definition three_hour_interval : Z := 10800000.

Definition ac_on_text : string := "The A/C should be on.".
Definition ac_off_text : string := "The A/C should be off.".

Definition ir_address_1 : Z := 0x00006F98.
Definition ir_command_1 : Z := 0x0000E619.
Definition ir_command_2 : Z := 0x0000F708.

(** ** Data model *)

Inductive AcSequenceState : Type :=
| AcSequenceIdle
| AcSequenceTurnOnStep1
| AcSequenceTurnOnStep2.

Definition AcSequenceState_eqb (a b : AcSequenceState) : bool :=
  match a, b with
  | AcSequenceIdle, AcSequenceIdle => true
  | AcSequenceTurnOnStep1, AcSequenceTurnOnStep1 => true
  | AcSequenceTurnOnStep2, AcSequenceTurnOnStep2 => true
  | _, _ => false
  end.

(** Modelled from the spec: the firmware's [InfraredProtocol] enumeration is
    declared in a header that is not part of the repository.  The program
    names one member, [InfraredProtocolNECext]; the other members are kept
    apart from it by a numeric tag. *)
Inductive InfraredProtocol : Type :=
| InfraredProtocolNECext
| InfraredProtocolOther (tag : nat).

(** The fields of [InfraredMessage] that [send_ir_signal] initialises. *)
Record InfraredMessage : Type := mkInfraredMessage {
  protocol : InfraredProtocol;
  address : Z;
  command : Z
}.

(** The three timers of the program.  Each is allocated once, with its own
    callback, before any callback runs. *)
Inductive TimerId : Type :=
| SignalTimer
| CountdownTimer
| SequenceTimer.

Definition TimerId_eqb (a b : TimerId) : bool :=
  match a, b with
  | SignalTimer, SignalTimer => true
  | CountdownTimer, CountdownTimer => true
  | SequenceTimer, SequenceTimer => true
  | _, _ => false
  end.

(** A one-shot timer is either stopped ([None]) or running with the interval
    it was started with. *)
Definition FuriTimer : Type := option Z.

(** Calls into the firmware, in the order the program makes them. *)
Inductive Event : Type :=
| InfraredTransmit (m : InfraredMessage)
| TimerStart (t : TimerId) (ms : Z)
| TimerStop (t : TimerId)
| ViewPortUpdate
| LogInfo (tag fmt : string) (args : list Z).

(** The global variables, the state of the three timers and the calls made
    so far (oldest first). *)
Record World : Type := mkWorld {
  ac_is_on : bool;
  next_signal_interval : Z;
  remaining_time : Z;
  sequence_state : AcSequenceState;
  signal_timer : FuriTimer;
  countdown_timer : FuriTimer;
  sequence_timer : FuriTimer;
  trace : list Event
}.

(** ** A state monad over [World] *)

Definition M (A : Type) : Type := World -> A * World.

Definition ret {A : Type} (a : A) : M A := fun w => (a, w).

Definition bind {A B : Type} (m : M A) (k : A -> M B) : M B :=
  fun w => let (a, w') := m w in k a w'.

Notation "x <- m ;; k" := (bind m (fun x => k))
  (at level 61, m at next level, right associativity).
Notation "m ;; k" := (bind m (fun _ => k))
  (at level 61, right associativity).

Definition exec (m : M unit) (w : World) : World := snd (m w).

Definition load {A : Type} (f : World -> A) : M A := fun w => (f w, w).

Definition store_ac_is_on (b : bool) : M unit := fun w =>
  match w with
  | mkWorld _ nsi rt st sig cd sq tr => (tt, mkWorld b nsi rt st sig cd sq tr)
  end.

Definition store_next_signal_interval (v : Z) : M unit := fun w =>
  match w with
  | mkWorld on _ rt st sig cd sq tr => (tt, mkWorld on v rt st sig cd sq tr)
  end.

Definition store_remaining_time (v : Z) : M unit := fun w =>
  match w with
  | mkWorld on nsi _ st sig cd sq tr => (tt, mkWorld on nsi v st sig cd sq tr)
  end.

Definition store_sequence_state (s : AcSequenceState) : M unit := fun w =>
  match w with
  | mkWorld on nsi rt _ sig cd sq tr => (tt, mkWorld on nsi rt s sig cd sq tr)
  end.

Definition emit (e : Event) : M unit := fun w =>
  match w with
  | mkWorld on nsi rt st sig cd sq tr =>
      (tt, mkWorld on nsi rt st sig cd sq (tr ++ [e]))
  end.

Definition timer (t : TimerId) (w : World) : FuriTimer :=
  match t with
  | SignalTimer => signal_timer w
  | CountdownTimer => countdown_timer w
  | SequenceTimer => sequence_timer w
  end.

Definition set_timer (t : TimerId) (v : FuriTimer) (w : World) : World :=
  match w with
  | mkWorld on nsi rt st sig cd sq tr =>
      match t with
      | SignalTimer => mkWorld on nsi rt st v cd sq tr
      | CountdownTimer => mkWorld on nsi rt st sig v sq tr
      | SequenceTimer => mkWorld on nsi rt st sig cd v tr
      end
  end.

(** ** Firmware services *)

(** [furi_timer_start]: (re)starts the timer with the given interval. *)
Definition furi_timer_start (t : TimerId) (ms : Z) : M unit :=
  emit (TimerStart t ms) ;;
  fun w => (tt, set_timer t (Some ms) w).

(** [furi_timer_stop]: stops the timer; a stopped timer stays stopped. *)
Definition furi_timer_stop (t : TimerId) : M unit :=
  emit (TimerStop t) ;;
  fun w => (tt, set_timer t None w).

Definition view_port_update : M unit := emit ViewPortUpdate.

Definition FURI_LOG_I (tag fmt : string) (args : list Z) : M unit :=
  emit (LogInfo tag fmt args).

Definition infrared_signal_transmit (m : InfraredMessage) : M unit :=
  emit (InfraredTransmit m).

(** ** The program *)

Definition send_ir_signal (address command : Z) : M unit :=
  let message := mkInfraredMessage InfraredProtocolNECext address command in
  infrared_signal_transmit message ;;
  FURI_LOG_I "ir_tx" "Sent infrared signal: address=0x%08lX, command=0x%08lX"
    [address; command].

Definition sequence_step_callback : M unit :=
  st <- load sequence_state ;;
  if AcSequenceState_eqb st AcSequenceTurnOnStep1 then
    send_ir_signal ir_address_1 ir_command_2 ;;
    store_sequence_state AcSequenceTurnOnStep2 ;;
    furi_timer_start SequenceTimer one_second_interval
  else if AcSequenceState_eqb st AcSequenceTurnOnStep2 then
    send_ir_signal ir_address_1 ir_command_2 ;;
    store_sequence_state AcSequenceIdle ;;
    store_ac_is_on true ;;
    store_next_signal_interval one_hour_interval ;;
    nsi <- load next_signal_interval ;;
    store_remaining_time nsi ;;
    furi_timer_stop SignalTimer ;;
    nsi' <- load next_signal_interval ;;
    furi_timer_start SignalTimer nsi' ;;
    view_port_update ;;
    FURI_LOG_I "ac_app" "The A/C should be on." []
  else
    ret tt.

Definition send_signals_and_update_text : M unit :=
  on <- load ac_is_on ;;
  if on then
    send_ir_signal ir_address_1 ir_command_1 ;;
    store_ac_is_on false ;;
    store_next_signal_interval three_hour_interval ;;
    nsi <- load next_signal_interval ;;
    store_remaining_time nsi ;;
    furi_timer_stop SignalTimer ;;
    nsi' <- load next_signal_interval ;;
    furi_timer_start SignalTimer nsi' ;;
    view_port_update ;;
    FURI_LOG_I "ac_app" "The A/C should be off." []
  else
    send_ir_signal ir_address_1 ir_command_1 ;;
    store_sequence_state AcSequenceTurnOnStep1 ;;
    furi_timer_start SequenceTimer one_second_interval ;;
    view_port_update.

Definition update_countdown : M unit :=
  rt <- load remaining_time ;;
  (if one_minute_interval <=? rt then
     store_remaining_time (UInt32.sub rt one_minute_interval)
   else
     store_remaining_time 0) ;;
  rt' <- load remaining_time ;;
  let remaining_minutes := UInt32.div rt' one_minute_interval in
  (if remaining_minutes =? 1 then
     FURI_LOG_I "countdown" "Time remaining until next signal: 1 minute" []
   else
     FURI_LOG_I "countdown" "Time remaining until next signal: %lu minutes"
       [remaining_minutes]) ;;
  view_port_update ;;
  furi_timer_stop CountdownTimer ;;
  furi_timer_start CountdownTimer one_minute_interval.

(** ** The draw callback *)

(** Of the firmware's fonts and alignments, the members the program names. *)
Inductive Font : Type := FontPrimary.

Inductive Align : Type := AlignCenter.

Inductive CanvasOp : Type :=
| CanvasClear
| CanvasSetFont (f : Font)
| CanvasDrawStrAligned (x y : Z) (horizontal vertical : Align) (s : string).

(** Decimal digits of an unsigned number, least significant digit first
    produced, as [%lu] prints them.  A [uint32_t] has at most ten digits. *)
Definition digit_char (d : Z) : ascii := ascii_of_nat (Z.to_nat (48 + d)).

Fixpoint utoa (fuel : nat) (n : Z) (acc : string) : string :=
  match fuel with
  | O => acc
  | S fuel' =>
      let acc' := String (digit_char (n mod 10)) acc in
      if n / 10 =? 0 then acc' else utoa fuel' (n / 10) acc'
  end.

Definition format_lu (n : Z) : string := utoa 10 n "".

(** The part of [printf] formatting the program uses with [snprintf]:
    ordinary characters are copied and [%lu] prints the next argument. *)
Fixpoint format (fmt : string) (args : list Z) : string :=
  match fmt with
  | EmptyString => EmptyString
  | String c rest =>
      match rest with
      | String c1 (String c2 rest') =>
          if ((c =? "%") && (c1 =? "l") && (c2 =? "u"))%char then
            match args with
            | a :: args' => (format_lu a ++ format rest' args')%string
            | [] => format rest' []
            end
          else String c (format rest args)
      | _ => String c (format rest args)
      end
  end.

(** [snprintf] into a buffer of [size] bytes keeps at most [size - 1]
    characters. *)
Definition snprintf (size : nat) (fmt : string) (args : list Z) : string :=
  substring 0 (size - 1) (format fmt args).

Definition countdown_text (w : World) : string :=
  let remaining_minutes := UInt32.div (remaining_time w) one_minute_interval in
  if remaining_minutes =? 0 then
    snprintf 32 "Sending signal soon..." []
  else if remaining_minutes =? 1 then
    snprintf 32 "Next signal in 1 min." []
  else
    snprintf 32 "Next signal in %lu mins." [remaining_minutes].

Definition ac_app_render_callback (w : World) : list CanvasOp :=
  [ CanvasClear;
    CanvasSetFont FontPrimary;
    CanvasDrawStrAligned 64 32 AlignCenter AlignCenter
      (if ac_is_on w then ac_on_text else ac_off_text);
    CanvasDrawStrAligned 64 48 AlignCenter AlignCenter (countdown_text w) ].

(** ** Start-up, timers and runs *)

(** The globals as their initialisers leave them, with the three timers
    allocated and stopped. *)
Definition boot : World :=
  mkWorld false one_hour_interval one_hour_interval AcSequenceIdle
    None None None [].

(** [ac_app_app] up to its event loop. *)
Definition ac_app_app_start : M unit :=
  FURI_LOG_I "ac_app" "The app started." [] ;;
  send_signals_and_update_text ;;
  furi_timer_start CountdownTimer one_minute_interval.

(** [ac_app_app] after its event loop. *)
Definition ac_app_app_cleanup : M unit :=
  FURI_LOG_I "ac_app" "Closing the application!" [] ;;
  furi_timer_stop SignalTimer ;;
  furi_timer_stop CountdownTimer ;;
  furi_timer_stop SequenceTimer.

(** The callback each timer was allocated with. *)
Definition timer_callback (t : TimerId) : M unit :=
  match t with
  | SignalTimer => send_signals_and_update_text
  | CountdownTimer => update_countdown
  | SequenceTimer => sequence_step_callback
  end.

(** One invocation of a timer's callback. *)
Definition fire (t : TimerId) (w : World) : World :=
  exec (timer_callback t) w.

(** Expiry of a one-shot timer: only a running timer expires; it is stopped
    and its callback runs. *)
Definition expire (t : TimerId) (w : World) : option World :=
  match timer t w with
  | Some _ => Some (fire t (set_timer t None w))
  | None => None
  end.

Fixpoint run (ts : list TimerId) (w : World) : option World :=
  match ts with
  | [] => Some w
  | t :: ts' =>
      match expire t w with
      | Some w' => run ts' w'
      | None => None
      end
  end.

(** The globals as their initialisers leave them. *)
Definition initial_globals (w : World) : Prop :=
  ac_is_on w = false /\
  next_signal_interval w = one_hour_interval /\
  remaining_time w = one_hour_interval /\
  sequence_state w = AcSequenceIdle.

(** States reached by invoking the three callbacks in any order. *)
Inductive reachable : World -> Prop :=
| reachable_init w : initial_globals w -> reachable w
| reachable_fire t w : reachable w -> reachable (fire t w).

(** States of the running application: start-up, then timer expiries. *)
Inductive driven : World -> Prop :=
| driven_start : driven (exec ac_app_app_start boot)
| driven_expire t w w' : driven w -> expire t w = Some w' -> driven w'.

(** Projections of the trace. *)
Definition ir_transmissions (w : World) : list InfraredMessage :=
  flat_map (fun e => match e with InfraredTransmit m => [m] | _ => [] end)
    (trace w).

Definition is_sequencer_event (e : Event) : bool :=
  match e with
  | InfraredTransmit _ => true
  | TimerStart SequenceTimer _ => true
  | _ => false
  end.

Definition sequencer_events (w : World) : list Event :=
  filter is_sequencer_event (trace w).

Definition power_message : InfraredMessage :=
  mkInfraredMessage InfraredProtocolNECext ir_address_1 ir_command_1.

Definition mode_message : InfraredMessage :=
  mkInfraredMessage InfraredProtocolNECext ir_address_1 ir_command_2.

(** ** Predicates and auxiliary definitions used by the properties *)

(** The value the countdown stores. *)
Definition countdown_next (rt : Z) : Z :=
  if one_minute_interval <=? rt then UInt32.sub rt one_minute_interval else 0.

Definition countdown_log (rt' : Z) : Event :=
  if UInt32.div rt' one_minute_interval =? 1 then
    LogInfo "countdown" "Time remaining until next signal: 1 minute" []
  else
    LogInfo "countdown" "Time remaining until next signal: %lu minutes"
      [UInt32.div rt' one_minute_interval].

(** The calls made on one timer. *)
Definition on_timer (t : TimerId) (e : Event) : bool :=
  match e with
  | TimerStart t' _ => TimerId_eqb t t'
  | TimerStop t' => TimerId_eqb t t'
  | _ => false
  end.

Definition timer_calls (t : TimerId) (w : World) : list Event :=
  filter (on_timer t) (trace w).

(** What a firmware call made by the program may look like, given the
    device state the program leaves behind. *)
Definition event_ok (on_after : bool) (e : Event) : Prop :=
  match e with
  | InfraredTransmit m =>
      protocol m = InfraredProtocolNECext /\
      address m = 0x00006F98 /\
      (command m = 0x0000E619 \/ command m = 0x0000F708)
  | TimerStart SequenceTimer ms => ms = 1000
  | TimerStart CountdownTimer ms => ms = 60000
  | TimerStart SignalTimer ms =>
      ms = if on_after then 3600000 else 10800000
  | _ => True
  end.

(** While the device is believed ON the sequencer is idle, and the remaining
    time is a 32-bit value that does not exceed the schedule interval. *)
Definition globals_inv (w : World) : Prop :=
  (ac_is_on w = true -> sequence_state w = AcSequenceIdle) /\
  0 <= remaining_time w <= next_signal_interval w /\
  UInt32.in_range (next_signal_interval w).

(** Reading a decimal numeral back. *)
Definition digit_value (c : ascii) : Z := Z.of_nat (nat_of_ascii c) - 48.

Fixpoint decimal_value_from (acc : Z) (s : string) : Z :=
  match s with
  | EmptyString => acc
  | String c s' => decimal_value_from (10 * acc + digit_value c) s'
  end.

Definition decimal_value (s : string) : Z := decimal_value_from 0 s.

(** While the sequencer is idle its timer is stopped and the schedule timer
    runs with the schedule interval; while the sequencer is waiting its
    timer runs with one second, the schedule timer is stopped and the device
    is OFF. *)
Definition timers_inv (w : World) : Prop :=
  match sequence_state w with
  | AcSequenceIdle =>
      sequence_timer w = None /\
      signal_timer w = Some (next_signal_interval w)
  | _ =>
      sequence_timer w = Some one_second_interval /\
      signal_timer w = None /\
      ac_is_on w = false
  end.

(** A state with the device OFF and the sequencer at its second waiting
    step. *)
Definition reentrant_world : World :=
  mkWorld false 3600000 3600000 AcSequenceTurnOnStep2
    None (Some 60000) (Some 1000) [].

(** The guard the OFF branch of the schedule tick would need in order to
    ignore a start while the sequencer is not idle. *)
Definition start_guarded (w : World) : Prop :=
  ac_is_on w = false ->
  sequence_state w <> AcSequenceIdle ->
  ir_transmissions (fire SignalTimer w) = ir_transmissions w /\
  sequence_state (fire SignalTimer w) = sequence_state w /\
  sequence_timer (fire SignalTimer w) = sequence_timer w.

(** The transmissions and sequence-timer starts of one turn-on sequence. *)
Definition turn_on_events : list Event :=
  [ InfraredTransmit (mkInfraredMessage InfraredProtocolNECext 0x6F98 0xE619);
    TimerStart SequenceTimer 1000;
    InfraredTransmit (mkInfraredMessage InfraredProtocolNECext 0x6F98 0xF708);
    TimerStart SequenceTimer 1000;
    InfraredTransmit (mkInfraredMessage InfraredProtocolNECext 0x6F98 0xF708) ].

(** Sequencer events still to come, by sequencer state. *)
Definition pending (st : AcSequenceState) : list Event :=
  match st with
  | AcSequenceIdle => []
  | AcSequenceTurnOnStep1 => skipn 2 turn_on_events
  | AcSequenceTurnOnStep2 => skipn 4 turn_on_events
  end.

(** Sequence-timer expiries still needed to finish the sequence. *)
Definition steps_left (st : AcSequenceState) : nat :=
  match st with
  | AcSequenceIdle => 0
  | AcSequenceTurnOnStep1 => 2
  | AcSequenceTurnOnStep2 => 1
  end.

(** Number of sequence-timer expiries in a schedule of expiries. *)
Definition sequence_expiries (ts : list TimerId) : nat :=
  List.length (filter (TimerId_eqb SequenceTimer) ts).

(** ** Input events, the event queue and the event loop *)

(** Modelled from the spec: the firmware's [InputKey] and [InputType]
    enumerations are declared in a header that is not part of the
    repository.  The program names one member of each, [InputKeyBack] and
    [InputTypeShort]; the other members are kept apart by a numeric tag. *)
Inductive InputKey : Type :=
| InputKeyBack
| InputKeyOther (tag : nat).

Inductive InputType : Type :=
| InputTypeShort
| InputTypeOther (tag : nat).

Definition InputKey_eqb (a b : InputKey) : bool :=
  match a, b with
  | InputKeyBack, InputKeyBack => true
  | InputKeyOther m, InputKeyOther n => Nat.eqb m n
  | _, _ => false
  end.

Definition InputType_eqb (a b : InputType) : bool :=
  match a, b with
  | InputTypeShort, InputTypeShort => true
  | InputTypeOther m, InputTypeOther n => Nat.eqb m n
  | _, _ => false
  end.

(** The fields of [InputEvent] the program reads and initialises. *)
Record InputEvent : Type := mkInputEvent {
  type : InputType;
  key : InputKey
}.

(** The message queue [ac_app_app] allocates: at most eight events, first
    in, first out. *)
Definition FuriMessageQueue : Type := list InputEvent.

Definition event_queue_capacity : nat := 8.

(** [furi_message_queue_put] with [FuriWaitForever]: the event is appended
    when there is room; otherwise the caller waits ([None]). *)
Definition furi_message_queue_put (q : FuriMessageQueue) (e : InputEvent)
  : option FuriMessageQueue :=
  if (List.length q <? event_queue_capacity)%nat then Some (q ++ [e])
  else None.

(** [ac_app_input_callback]: returns the queue after the call, [None] when
    the put has to wait for room. *)
Definition ac_app_input_callback (input_event : InputEvent)
    (event_queue : FuriMessageQueue) : M (option FuriMessageQueue) :=
  if InputKey_eqb (key input_event) InputKeyBack
     && InputType_eqb (type input_event) InputTypeShort then
    FURI_LOG_I "ac_app" "Received input to close the application." [] ;;
    let exit_event := mkInputEvent InputTypeShort InputKeyBack in
    ret (furi_message_queue_put event_queue exit_event)
  else
    ret (Some event_queue).

(** The event loop of [ac_app_app] on the events queued so far.  Each
    [furi_message_queue_get] takes the oldest event; the loop goes on until
    an event has the Back key and is then left with the rest of the queue
    ([Some]); on an empty queue the get waits ([None]). *)
Fixpoint ac_app_event_loop (event_queue : FuriMessageQueue)
  : option FuriMessageQueue :=
  match event_queue with
  | [] => None
  | event :: rest =>
      if InputKey_eqb (key event) InputKeyBack then Some rest
      else ac_app_event_loop rest
  end.

(** What happens to the running application: a timer expires or the input
    service delivers an event. *)
Inductive Happening : Type :=
| TimerExpires (t : TimerId)
| InputArrives (e : InputEvent).

(** The application after start-up, with its callbacks serialised: timer
    callbacks run when their timer expires (a stopped timer does not
    expire), the input callback runs on each delivered event and the event
    loop, waiting on the queue, takes what was put.  When the loop is left
    the clean-up runs and nothing further happens.  The result is the final
    state and whether the application has exited. *)
Fixpoint ac_app_session (hs : list Happening) (event_queue : FuriMessageQueue)
    (w : World) : World * bool :=
  match hs with
  | [] => (w, false)
  | TimerExpires t :: hs' =>
      match expire t w with
      | Some w' => ac_app_session hs' event_queue w'
      | None => ac_app_session hs' event_queue w
      end
  | InputArrives e :: hs' =>
      let (put, w') := ac_app_input_callback e event_queue w in
      match put with
      | None => ac_app_session hs' event_queue w'
      | Some q =>
          match ac_app_event_loop q with
          | Some _ => (exec ac_app_app_cleanup w', true)
          | None => ac_app_session hs' [] w'
          end
      end
  end.

(** [ac_app_app]: start-up from the initial globals with an empty queue,
    then the session. *)
Definition ac_app_app (hs : list Happening) : World * bool :=
  ac_app_session hs [] (exec ac_app_app_start boot).

(** ** Further auxiliary definitions *)

(** A short press of the Back key. *)
Definition is_exit_press (e : InputEvent) : bool :=
  InputKey_eqb (key e) InputKeyBack && InputType_eqb (type e) InputTypeShort.

Definition is_exit_happening (h : Happening) : bool :=
  match h with
  | InputArrives e => is_exit_press e
  | TimerExpires _ => false
  end.

(** One power cycle as the air conditioner receives it: the turn-on
    sequence, then the power code that turns it off. *)
Definition power_cycle : list InfraredMessage :=
  [power_message; mode_message; mode_message; power_message].

(** How far into the current power cycle the program is. *)
Definition phase (w : World) : nat :=
  match sequence_state w with
  | AcSequenceTurnOnStep1 => 1
  | AcSequenceTurnOnStep2 => 2
  | AcSequenceIdle => if ac_is_on w then 3 else 0
  end.

(** What a callback transmits, by the state it finds. *)
Definition transmitted (t : TimerId) (w : World) : list InfraredMessage :=
  match t with
  | SignalTimer => [power_message]
  | CountdownTimer => []
  | SequenceTimer =>
      match sequence_state w with
      | AcSequenceIdle => []
      | _ => [mode_message]
      end
  end.

(** Everything but the remaining time and the redraw and log calls: the
    state that decides what is transmitted and when. *)
Definition control (w : World)
  : bool * Z * AcSequenceState * FuriTimer * FuriTimer * FuriTimer
    * list InfraredMessage :=
  (ac_is_on w, next_signal_interval w, sequence_state w,
   signal_timer w, countdown_timer w, sequence_timer w, ir_transmissions w).

(** The schedule interval is one of the two the program uses, and the
    short one while the device is ON. *)
Definition interval_inv (w : World) : Prop :=
  (next_signal_interval w = 3600000 \/ next_signal_interval w = 10800000) /\
  (ac_is_on w = true -> next_signal_interval w = 3600000).

(** Timer expiries, as opposed to input events. *)
Definition is_timer_happening (h : Happening) : bool :=
  match h with
  | TimerExpires _ => true
  | InputArrives _ => false
  end.

(** * Properties *)

(** ** What one callback invocation does *)

Ltac run_callback :=
  cbv [fire exec timer_callback send_signals_and_update_text
       sequence_step_callback update_countdown send_ir_signal
       infrared_signal_transmit FURI_LOG_I view_port_update
       furi_timer_start furi_timer_stop emit load ret bind
       store_ac_is_on store_next_signal_interval store_remaining_time
       store_sequence_state set_timer
       ac_is_on next_signal_interval remaining_time sequence_state
       signal_timer countdown_timer sequence_timer trace
       AcSequenceState_eqb snd];
  repeat rewrite <- app_assoc; cbn [app].

Lemma fire_signal_on w :
  ac_is_on w = true ->
  fire SignalTimer w =
  mkWorld false three_hour_interval three_hour_interval (sequence_state w)
    (Some three_hour_interval) (countdown_timer w) (sequence_timer w)
    (trace w ++
     [ InfraredTransmit power_message;
       LogInfo "ir_tx"
         "Sent infrared signal: address=0x%08lX, command=0x%08lX"
         [ir_address_1; ir_command_1];
       TimerStop SignalTimer;
       TimerStart SignalTimer three_hour_interval;
       ViewPortUpdate;
       LogInfo "ac_app" "The A/C should be off." [] ]).
Proof.
  destruct w as [on nsi rt st sig cd sq tr]; cbn [ac_is_on]; intros ->.
  run_callback. reflexivity.
Qed.

Lemma fire_signal_off w :
  ac_is_on w = false ->
  fire SignalTimer w =
  mkWorld false (next_signal_interval w) (remaining_time w)
    AcSequenceTurnOnStep1
    (signal_timer w) (countdown_timer w) (Some one_second_interval)
    (trace w ++
     [ InfraredTransmit power_message;
       LogInfo "ir_tx"
         "Sent infrared signal: address=0x%08lX, command=0x%08lX"
         [ir_address_1; ir_command_1];
       TimerStart SequenceTimer one_second_interval;
       ViewPortUpdate ]).
Proof.
  destruct w as [on nsi rt st sig cd sq tr]; cbn [ac_is_on]; intros ->.
  run_callback. reflexivity.
Qed.

Lemma fire_sequence_idle w :
  sequence_state w = AcSequenceIdle -> fire SequenceTimer w = w.
Proof.
  destruct w as [on nsi rt st sig cd sq tr]; cbn [sequence_state]; intros ->.
  run_callback. reflexivity.
Qed.

Lemma fire_sequence_step1 w :
  sequence_state w = AcSequenceTurnOnStep1 ->
  fire SequenceTimer w =
  mkWorld (ac_is_on w) (next_signal_interval w) (remaining_time w)
    AcSequenceTurnOnStep2
    (signal_timer w) (countdown_timer w) (Some one_second_interval)
    (trace w ++
     [ InfraredTransmit mode_message;
       LogInfo "ir_tx"
         "Sent infrared signal: address=0x%08lX, command=0x%08lX"
         [ir_address_1; ir_command_2];
       TimerStart SequenceTimer one_second_interval ]).
Proof.
  destruct w as [on nsi rt st sig cd sq tr]; cbn [sequence_state]; intros ->.
  run_callback. reflexivity.
Qed.

Lemma fire_sequence_step2 w :
  sequence_state w = AcSequenceTurnOnStep2 ->
  fire SequenceTimer w =
  mkWorld true one_hour_interval one_hour_interval AcSequenceIdle
    (Some one_hour_interval) (countdown_timer w) (sequence_timer w)
    (trace w ++
     [ InfraredTransmit mode_message;
       LogInfo "ir_tx"
         "Sent infrared signal: address=0x%08lX, command=0x%08lX"
         [ir_address_1; ir_command_2];
       TimerStop SignalTimer;
       TimerStart SignalTimer one_hour_interval;
       ViewPortUpdate;
       LogInfo "ac_app" "The A/C should be on." [] ]).
Proof.
  destruct w as [on nsi rt st sig cd sq tr]; cbn [sequence_state]; intros ->.
  run_callback. reflexivity.
Qed.

Lemma fire_countdown w :
  fire CountdownTimer w =
  mkWorld (ac_is_on w) (next_signal_interval w)
    (countdown_next (remaining_time w)) (sequence_state w)
    (signal_timer w) (Some one_minute_interval) (sequence_timer w)
    (trace w ++
     [ countdown_log (countdown_next (remaining_time w));
       ViewPortUpdate;
       TimerStop CountdownTimer;
       TimerStart CountdownTimer one_minute_interval ]).
Proof.
  destruct w as [on nsi rt st sig cd sq tr].
  unfold countdown_next, countdown_log. run_callback.
  destruct (one_minute_interval <=? rt); run_callback;
    match goal with |- context [?a =? 1] => destruct (a =? 1) end;
    run_callback; reflexivity.
Qed.

(** ** Rescheduling after a completed transition *)

(** C1. A schedule tick taken while the device is ON turns it OFF, sets the
    schedule interval and the remaining time to 10 800 000 ms and stops and
    restarts the schedule timer with that interval.  The sequence step that
    completes the turn-on sequence turns the device ON, sets both to
    3 600 000 ms and stops and restarts the schedule timer with that
    interval. *)
Theorem reschedule_after_transition (w1 w2 : World) :
  ac_is_on w1 = true ->
  sequence_state w2 = AcSequenceTurnOnStep2 ->
  (ac_is_on (fire SignalTimer w1) = false /\
   next_signal_interval (fire SignalTimer w1) = 10800000 /\
   remaining_time (fire SignalTimer w1) = 10800000 /\
   signal_timer (fire SignalTimer w1) = Some 10800000 /\
   timer_calls SignalTimer (fire SignalTimer w1) =
     timer_calls SignalTimer w1 ++
     [TimerStop SignalTimer; TimerStart SignalTimer 10800000]) /\
  (ac_is_on (fire SequenceTimer w2) = true /\
   sequence_state (fire SequenceTimer w2) = AcSequenceIdle /\
   next_signal_interval (fire SequenceTimer w2) = 3600000 /\
   remaining_time (fire SequenceTimer w2) = 3600000 /\
   signal_timer (fire SequenceTimer w2) = Some 3600000 /\
   timer_calls SignalTimer (fire SequenceTimer w2) =
     timer_calls SignalTimer w2 ++
     [TimerStop SignalTimer; TimerStart SignalTimer 3600000]).
Proof.
  intros Hon Hstep.
  rewrite (fire_signal_on w1 Hon), (fire_sequence_step2 w2 Hstep).
  unfold timer_calls; cbn [ac_is_on next_signal_interval remaining_time
    sequence_state signal_timer trace].
  rewrite !filter_app.
  repeat split; reflexivity.
Qed.

Lemma reschedule_after_transition_witness :
  let on := mkWorld true 3600000 120000 AcSequenceIdle None (Some 60000) None [] in
  let step2 :=
    mkWorld false 10800000 0 AcSequenceTurnOnStep2 None (Some 60000) None [] in
  remaining_time (fire SignalTimer on) = 10800000 /\
  remaining_time (fire SequenceTimer step2) = 3600000.
Proof.
  intros on step2.
  destruct (reschedule_after_transition on step2 eq_refl eq_refl)
    as [(_ & _ & Hoff & _) (_ & _ & _ & Hon & _)].
  split; assumption.
Defined.

(** ** The countdown *)

(** C5. For every 32-bit value of the remaining time, a countdown tick
    stores the value minus 60 000 when it is at least 60 000 and stores 0
    otherwise; the stored value lies between 0 and the previous value, so the
    subtraction never wraps. *)
Theorem countdown_tick_clamps (w : World) :
  UInt32.in_range (remaining_time w) ->
  remaining_time (fire CountdownTimer w) =
    (if 60000 <=? remaining_time w then remaining_time w - 60000 else 0) /\
  0 <= remaining_time (fire CountdownTimer w) <= remaining_time w.
Proof.
  unfold UInt32.in_range, UInt32.modulus. intros Hr.
  rewrite fire_countdown; cbn [remaining_time].
  unfold countdown_next, UInt32.sub, UInt32.wrap, UInt32.modulus,
    one_minute_interval.
  destruct (Z.leb_spec 60000 (remaining_time w)) as [Hge | Hlt].
  - rewrite Z.mod_small by lia. lia.
  - lia.
Qed.

Lemma countdown_tick_clamps_witness :
  let w := mkWorld false 3600000 59999 AcSequenceIdle None None None [] in
  remaining_time (fire CountdownTimer w) = 0.
Proof.
  intros w.
  assert (Hr : UInt32.in_range (remaining_time w))
    by (unfold UInt32.in_range, UInt32.modulus; cbn; lia).
  exact (proj1 (countdown_tick_clamps w Hr)).
Defined.

(** ** The schedule tick while the device is OFF *)

(** C6. A schedule tick taken while the device is OFF leaves the device
    state, the schedule interval, the remaining time and the schedule and
    countdown timers as they were; it transmits the power code, moves the
    sequencer to its first waiting step, starts the sequence timer with
    1 000 ms and requests a redraw.  The first sequence step leaves the
    three values unchanged as well; the second one turns the device ON and
    resets the countdown. *)
Theorem schedule_tick_off_frame (w : World) :
  ac_is_on w = false ->
  let w1 := fire SignalTimer w in
  let w2 := fire SequenceTimer w1 in
  let w3 := fire SequenceTimer w2 in
  (ac_is_on w1 = ac_is_on w /\
   next_signal_interval w1 = next_signal_interval w /\
   remaining_time w1 = remaining_time w /\
   signal_timer w1 = signal_timer w /\
   countdown_timer w1 = countdown_timer w /\
   sequence_state w1 = AcSequenceTurnOnStep1 /\
   sequence_timer w1 = Some 1000 /\
   trace w1 =
     trace w ++
     [ InfraredTransmit
         (mkInfraredMessage InfraredProtocolNECext 0x6F98 0xE619);
       LogInfo "ir_tx"
         "Sent infrared signal: address=0x%08lX, command=0x%08lX"
         [0x6F98; 0xE619];
       TimerStart SequenceTimer 1000;
       ViewPortUpdate ]) /\
  (ac_is_on w2 = ac_is_on w /\
   next_signal_interval w2 = next_signal_interval w /\
   remaining_time w2 = remaining_time w) /\
  (ac_is_on w3 = true /\
   next_signal_interval w3 = 3600000 /\
   remaining_time w3 = 3600000).
Proof.
  intros Hoff w1 w2 w3.
  assert (E1 : w1 = _) by exact (fire_signal_off w Hoff).
  assert (E2 : w2 = _)
    by (apply fire_sequence_step1; rewrite E1; reflexivity).
  assert (E3 : w3 = _)
    by (apply fire_sequence_step2; rewrite E2; reflexivity).
  rewrite E3, E2, E1; cbn [ac_is_on next_signal_interval remaining_time
    sequence_state signal_timer countdown_timer sequence_timer trace].
  rewrite Hoff. repeat split; reflexivity.
Qed.

Lemma schedule_tick_off_frame_witness :
  remaining_time (fire SignalTimer boot) = remaining_time boot /\
  ac_is_on (fire SignalTimer boot) = ac_is_on boot.
Proof.
  destruct (schedule_tick_off_frame boot eq_refl)
    as [(Hon & _ & Hrt & _) _].
  split; assumption.
Defined.

(** ** The sequence step while the sequencer is idle *)

(** C9. When the sequencer is idle the sequence-step callback returns with
    the whole state as it found it: no global changes, no timer is started
    or stopped and nothing is added to the trace. *)
Theorem sequence_step_idle_noop (w : World) :
  sequence_state w = AcSequenceIdle ->
  sequence_step_callback w = (tt, w).
Proof.
  destruct w as [on nsi rt st sig cd sq tr]; cbn [sequence_state].
  intros ->. reflexivity.
Qed.

Lemma sequence_step_idle_noop_witness :
  sequence_step_callback boot = (tt, boot).
Proof.
  apply sequence_step_idle_noop. reflexivity.
Defined.

(** ** The fixed codes and intervals *)

Ltac events_ok :=
  repeat first [apply Forall_nil | apply Forall_cons];
  cbn; try exact I; auto 6.

Lemma callback_events_ok t w :
  exists evs,
    trace (fire t w) = trace w ++ evs /\
    Forall (event_ok (ac_is_on (fire t w))) evs.
Proof.
  destruct t.
  - destruct (ac_is_on w) eqn:Hon.
    + rewrite (fire_signal_on w Hon); cbn [trace ac_is_on].
      eexists; split; [reflexivity | ].
      events_ok.
    + rewrite (fire_signal_off w Hon); cbn [trace ac_is_on].
      eexists; split; [reflexivity | ].
      events_ok.
  - rewrite fire_countdown; cbn [trace ac_is_on].
    eexists; split; [reflexivity | ].
    unfold countdown_log.
    destruct (_ =? 1); events_ok.
  - destruct (sequence_state w) eqn:Hst.
    + rewrite (fire_sequence_idle w Hst).
      exists []; split; [symmetry; apply app_nil_r | constructor].
    + rewrite (fire_sequence_step1 w Hst); cbn [trace ac_is_on].
      eexists; split; [reflexivity | ].
      events_ok.
    + rewrite (fire_sequence_step2 w Hst); cbn [trace ac_is_on].
      eexists; split; [reflexivity | ].
      events_ok.
Qed.

(** C8. Whatever the state, every transmission made by a callback or by the
    start-up code uses the extended-NEC protocol, the address 0x00006F98 and
    the command 0x0000E619 or 0x0000F708; the sequence timer is only started
    with 1 000 ms, the countdown timer with 60 000 ms, and the schedule timer
    with 3 600 000 ms when the device has just been turned ON and with
    10 800 000 ms when it has just been turned OFF. *)
Theorem fixed_codes_and_intervals (w : World) :
  (forall t, exists evs,
      trace (fire t w) = trace w ++ evs /\
      Forall (event_ok (ac_is_on (fire t w))) evs) /\
  (exists evs,
      trace (exec ac_app_app_start w) = trace w ++ evs /\
      Forall (event_ok (ac_is_on (exec ac_app_app_start w))) evs).
Proof.
  split.
  - intros t. apply callback_events_ok.
  - destruct w as [on nsi rt st sig cd sq tr].
    unfold ac_app_app_start. destruct on; run_callback.
    + eexists; split; [reflexivity | ]. events_ok.
    + eexists; split; [reflexivity | ]. events_ok.
Qed.

(** ** Invariants of the globals *)

Lemma globals_inv_init w : initial_globals w -> globals_inv w.
Proof.
  intros (Hon & Hnsi & Hrt & Hst). unfold globals_inv, UInt32.in_range.
  rewrite Hon, Hnsi, Hrt, Hst.
  unfold one_hour_interval, UInt32.modulus.
  split; [reflexivity | lia].
Qed.

Lemma countdown_next_bounds rt :
  0 <= rt < UInt32.modulus -> 0 <= countdown_next rt <= rt.
Proof.
  unfold countdown_next, UInt32.sub, UInt32.wrap, UInt32.modulus,
    one_minute_interval.
  intros Hr. destruct (Z.leb_spec 60000 rt).
  - rewrite Z.mod_small by lia. lia.
  - lia.
Qed.

Lemma globals_inv_fire t w : globals_inv w -> globals_inv (fire t w).
Proof.
  unfold globals_inv, UInt32.in_range.
  intros (Hidle & Hrt & Hnsi). destruct t.
  - destruct (ac_is_on w) eqn:Hon.
    + rewrite (fire_signal_on w Hon);
        cbn [ac_is_on sequence_state remaining_time next_signal_interval].
      unfold three_hour_interval, UInt32.modulus.
      split; [discriminate | lia].
    + rewrite (fire_signal_off w Hon);
        cbn [ac_is_on sequence_state remaining_time next_signal_interval].
      split; [discriminate | lia].
  - rewrite fire_countdown;
      cbn [ac_is_on sequence_state remaining_time next_signal_interval].
    pose proof (countdown_next_bounds (remaining_time w)) as Hb.
    split; [assumption | lia].
  - destruct (sequence_state w) eqn:Hst.
    + rewrite (fire_sequence_idle w Hst). rewrite Hst. auto.
    + rewrite (fire_sequence_step1 w Hst);
        cbn [ac_is_on sequence_state remaining_time next_signal_interval].
      split; [ | lia].
      intros Hon. specialize (Hidle Hon). discriminate.
    + rewrite (fire_sequence_step2 w Hst);
        cbn [ac_is_on sequence_state remaining_time next_signal_interval].
      unfold one_hour_interval, UInt32.modulus.
      split; [reflexivity | lia].
Qed.

Lemma reachable_globals_inv w : reachable w -> globals_inv w.
Proof.
  induction 1 as [w Hinit | t w _ IH].
  - apply globals_inv_init; assumption.
  - apply globals_inv_fire; assumption.
Qed.

(** C10. In every state reached from the initial globals by any sequence of
    schedule-tick, sequence-step and countdown callbacks, the remaining time
    does not exceed the schedule interval. *)
Theorem remaining_time_le_interval (w : World) :
  reachable w -> remaining_time w <= next_signal_interval w.
Proof.
  intros Hr. apply reachable_globals_inv in Hr.
  destruct Hr as (_ & Hle & _). lia.
Qed.

Lemma remaining_time_le_interval_witness :
  let w := fire CountdownTimer (fire SequenceTimer (fire SignalTimer boot)) in
  remaining_time w <= next_signal_interval w.
Proof.
  intros w. apply remaining_time_le_interval.
  repeat apply reachable_fire. apply reachable_init.
  repeat split; reflexivity.
Defined.

(** ** The rendered countdown *)

Lemma digit_value_char d : 0 <= d <= 9 -> digit_value (digit_char d) = d.
Proof.
  intros Hd. unfold digit_value, digit_char.
  rewrite nat_ascii_embedding by lia. lia.
Qed.

Lemma utoa_value fuel : forall n acc,
  0 <= n < 10 ^ Z.of_nat fuel ->
  decimal_value_from 0 (utoa fuel n acc) = decimal_value_from n acc.
Proof.
  induction fuel as [ | fuel IH]; intros n acc Hn.
  - cbn in Hn. assert (n = 0) by lia. subst n. reflexivity.
  - rewrite Nat2Z.inj_succ, Z.pow_succ_r in Hn by lia.
    cbn [utoa].
    assert (Hd : 0 <= n mod 10 <= 9)
      by (pose proof (Z.mod_pos_bound n 10); lia).
    pose proof (Z.div_mod n 10 ltac:(lia)) as Hdm.
    destruct (Z.eqb_spec (n / 10) 0) as [Hq | Hq].
    + cbn [decimal_value_from]. rewrite digit_value_char by assumption.
      f_equal. lia.
    + rewrite IH.
      * cbn [decimal_value_from]. rewrite digit_value_char by assumption.
        f_equal. lia.
      * split; [apply Z.div_pos; lia | ].
        apply Z.div_lt_upper_bound; lia.
Qed.

Lemma utoa_length fuel : forall n acc,
  (String.length (utoa fuel n acc) <= String.length acc + fuel)%nat.
Proof.
  induction fuel as [ | fuel IH]; intros n acc; cbn [utoa].
  - lia.
  - destruct (n / 10 =? 0).
    + cbn [String.length]. lia.
    + specialize (IH (n / 10) (String (digit_char (n mod 10)) acc)).
      cbn [String.length] in IH. lia.
Qed.

(** The numeral printed for a 32-bit value reads back as that value and has
    at most ten characters. *)
Lemma format_lu_decimal n :
  UInt32.in_range n ->
  decimal_value (format_lu n) = n /\
  (String.length (format_lu n) <= 10)%nat.
Proof.
  unfold UInt32.in_range, UInt32.modulus. intros Hn. split.
  - unfold decimal_value, format_lu. rewrite utoa_value.
    + reflexivity.
    + change (10 ^ Z.of_nat 10) with 10000000000. lia.
  - apply (utoa_length 10 n EmptyString).
Qed.

Lemma substring_whole s : forall n,
  (String.length s <= n)%nat -> substring 0 n s = s.
Proof.
  induction s as [ | c s IH]; intros [ | n] Hlen; cbn in *;
    try reflexivity; try lia.
  f_equal. apply IH. lia.
Qed.

Lemma length_string_app (s1 s2 : string) :
  String.length (s1 ++ s2)%string = (String.length s1 + String.length s2)%nat.
Proof.
  induction s1 as [ | c s1 IH]; cbn; [reflexivity | now rewrite IH].
Qed.

Lemma snprintf_plural n :
  UInt32.in_range n ->
  snprintf 32 "Next signal in %lu mins." [n] =
  ("Next signal in " ++ format_lu n ++ " mins.")%string.
Proof.
  intros Hn. unfold snprintf.
  change (format "Next signal in %lu mins." [n])
    with ("Next signal in " ++ format_lu n ++ " mins.")%string.
  apply substring_whole.
  rewrite !length_string_app.
  pose proof (proj2 (format_lu_decimal n Hn)) as Hlen.
  cbn [String.length Nat.sub]. lia.
Qed.

(** C7. When the remaining time is [N * 60000] ms, the draw callback clears
    the canvas, selects the primary font, draws the status line and then
    draws as countdown line: "Sending signal soon..." for [N = 0],
    "Next signal in 1 min." for [N = 1], and for [N >= 2] the text
    "Next signal in ", the decimal numeral of [N], " mins.".  The numeral
    reads back as [N]. *)
Theorem render_countdown_text (w : World) (N : Z) :
  UInt32.in_range (N * 60000) ->
  remaining_time w = N * 60000 ->
  ac_app_render_callback w =
    [ CanvasClear;
      CanvasSetFont FontPrimary;
      CanvasDrawStrAligned 64 32 AlignCenter AlignCenter
        (if ac_is_on w then "The A/C should be on."
         else "The A/C should be off.");
      CanvasDrawStrAligned 64 48 AlignCenter AlignCenter
        (if N =? 0 then "Sending signal soon..."
         else if N =? 1 then "Next signal in 1 min."
         else ("Next signal in " ++ format_lu N ++ " mins.")%string) ] /\
  decimal_value (format_lu N) = N.
Proof.
  unfold UInt32.in_range, UInt32.modulus. intros Hr Hrt.
  assert (HN : UInt32.in_range N)
    by (unfold UInt32.in_range, UInt32.modulus; lia).
  split; [ | apply format_lu_decimal; assumption].
  unfold ac_app_render_callback, countdown_text, UInt32.div,
    one_minute_interval.
  rewrite Hrt, Z.div_mul by lia.
  destruct (N =? 0); [reflexivity | ].
  destruct (N =? 1); [reflexivity | ].
  rewrite snprintf_plural by assumption. reflexivity.
Qed.

Lemma render_countdown_text_witness :
  let w := mkWorld false 10800000 10800000 AcSequenceIdle None None None [] in
  ac_app_render_callback w =
    [ CanvasClear;
      CanvasSetFont FontPrimary;
      CanvasDrawStrAligned 64 32 AlignCenter AlignCenter
        "The A/C should be off.";
      CanvasDrawStrAligned 64 48 AlignCenter AlignCenter
        "Next signal in 180 mins." ].
Proof.
  intros w.
  assert (Hr : UInt32.in_range (180 * 60000))
    by (unfold UInt32.in_range, UInt32.modulus; lia).
  exact (proj1 (render_countdown_text w 180 Hr eq_refl)).
Defined.

Example countdown_text_samples :
  map (fun rt => countdown_text
                   (mkWorld false 0 rt AcSequenceIdle None None None []))
    [0; 59999; 60000; 119999; 120000; 3600000; 4294967295] =
  [ "Sending signal soon..."; "Sending signal soon...";
    "Next signal in 1 min."; "Next signal in 1 min.";
    "Next signal in 2 mins."; "Next signal in 60 mins.";
    "Next signal in 71582 mins." ].
Proof. reflexivity. Qed.

(** ** Timer expiries *)

Lemma set_timer_globals t v w :
  ac_is_on (set_timer t v w) = ac_is_on w /\
  next_signal_interval (set_timer t v w) = next_signal_interval w /\
  remaining_time (set_timer t v w) = remaining_time w /\
  sequence_state (set_timer t v w) = sequence_state w /\
  trace (set_timer t v w) = trace w.
Proof. destruct w, t; repeat split; reflexivity. Qed.

Lemma sequencer_events_app on nsi rt st sig cd sq tr evs :
  sequencer_events (mkWorld on nsi rt st sig cd sq (tr ++ evs)) =
  filter is_sequencer_event tr ++ filter is_sequencer_event evs.
Proof. unfold sequencer_events; cbn [trace]. apply filter_app. Qed.

Lemma is_sequencer_event_countdown_log rt :
  is_sequencer_event (countdown_log rt) = false.
Proof. unfold countdown_log. destruct (_ =? 1); reflexivity. Qed.

Lemma expire_countdown w w1 :
  expire CountdownTimer w = Some w1 ->
  ac_is_on w1 = ac_is_on w /\
  sequence_state w1 = sequence_state w /\
  signal_timer w1 = signal_timer w /\
  sequence_timer w1 = sequence_timer w /\
  next_signal_interval w1 = next_signal_interval w /\
  sequencer_events w1 = sequencer_events w.
Proof.
  unfold expire. destruct (timer CountdownTimer w); [ | discriminate].
  intros [= <-]. rewrite fire_countdown.
  destruct w as [on nsi rt st sig cd sq tr].
  cbn [set_timer ac_is_on next_signal_interval remaining_time sequence_state
       signal_timer countdown_timer sequence_timer trace].
  rewrite sequencer_events_app. cbn [filter].
  rewrite is_sequencer_event_countdown_log. cbn.
  rewrite app_nil_r. repeat split; reflexivity.
Qed.

Lemma expire_sequence w w1 :
  expire SequenceTimer w = Some w1 ->
  sequence_timer w <> None /\
  match sequence_state w with
  | AcSequenceIdle => w1 = set_timer SequenceTimer None w
  | AcSequenceTurnOnStep1 =>
      sequence_state w1 = AcSequenceTurnOnStep2 /\
      ac_is_on w1 = ac_is_on w /\
      signal_timer w1 = signal_timer w /\
      sequence_timer w1 = Some one_second_interval /\
      next_signal_interval w1 = next_signal_interval w /\
      sequencer_events w1 =
        sequencer_events w ++
        [InfraredTransmit mode_message; TimerStart SequenceTimer 1000]
  | AcSequenceTurnOnStep2 =>
      sequence_state w1 = AcSequenceIdle /\
      ac_is_on w1 = true /\
      signal_timer w1 = Some one_hour_interval /\
      sequence_timer w1 = None /\
      next_signal_interval w1 = one_hour_interval /\
      sequencer_events w1 =
        sequencer_events w ++ [InfraredTransmit mode_message]
  end.
Proof.
  destruct w as [on nsi rt st sig cd sq tr].
  unfold expire, timer; cbn [sequence_timer sequence_state set_timer
    ac_is_on next_signal_interval remaining_time signal_timer
    countdown_timer trace].
  destruct sq as [ms | ]; [ | discriminate].
  intros [= <-]. split; [discriminate | ].
  destruct st.
  - reflexivity.
  - rewrite fire_sequence_step1 by reflexivity.
    cbn [ac_is_on next_signal_interval remaining_time
         sequence_state signal_timer countdown_timer sequence_timer trace].
    rewrite sequencer_events_app. repeat split; reflexivity.
  - rewrite fire_sequence_step2 by reflexivity.
    cbn [ac_is_on next_signal_interval remaining_time
         sequence_state signal_timer countdown_timer sequence_timer trace].
    rewrite sequencer_events_app. repeat split; reflexivity.
Qed.

Lemma expire_signal w w1 :
  expire SignalTimer w = Some w1 ->
  signal_timer w <> None /\
  if ac_is_on w then
    ac_is_on w1 = false /\
    sequence_state w1 = sequence_state w /\
    signal_timer w1 = Some three_hour_interval /\
    sequence_timer w1 = sequence_timer w /\
    next_signal_interval w1 = three_hour_interval
  else
    ac_is_on w1 = false /\
    sequence_state w1 = AcSequenceTurnOnStep1 /\
    signal_timer w1 = None /\
    sequence_timer w1 = Some one_second_interval /\
    next_signal_interval w1 = next_signal_interval w.
Proof.
  destruct w as [on nsi rt st sig cd sq tr].
  unfold expire, timer; cbn [sequence_timer sequence_state set_timer
    ac_is_on next_signal_interval remaining_time signal_timer
    countdown_timer trace].
  destruct sig as [ms | ]; [ | discriminate].
  intros [= <-]. split; [discriminate | ].
  destruct on.
  - rewrite fire_signal_on by reflexivity. repeat split; reflexivity.
  - rewrite fire_signal_off by reflexivity. repeat split; reflexivity.
Qed.

(** ** Timers of the running application *)

Lemma timers_inv_start : timers_inv (exec ac_app_app_start boot).
Proof. repeat split; reflexivity. Qed.

Lemma timers_inv_expire t w w1 :
  timers_inv w -> expire t w = Some w1 -> timers_inv w1.
Proof.
  unfold timers_inv. intros Hinv Hex. destruct t.
  - apply expire_signal in Hex. destruct Hex as [Harmed Hex].
    destruct (sequence_state w) eqn:Hst;
      try (destruct Hinv as (_ & Hsig & _); congruence).
    destruct Hinv as (Hsq & _).
    destruct (ac_is_on w);
      destruct Hex as (Hon1 & Hst1 & Hsig1 & Hsq1 & Hnsi1);
      rewrite Hst1; repeat split; congruence.
  - apply expire_countdown in Hex.
    destruct Hex as (Hon1 & Hst1 & Hsig1 & Hsq1 & Hnsi1 & _).
    rewrite Hst1, Hsig1, Hsq1, Hnsi1, Hon1. exact Hinv.
  - apply expire_sequence in Hex. destruct Hex as [Harmed Hex].
    destruct (sequence_state w) eqn:Hst.
    + destruct Hinv as (Hsq & _). congruence.
    + destruct Hinv as (_ & Hsig & Hoff).
      destruct Hex as (Hst1 & Hon1 & Hsig1 & Hsq1 & _).
      rewrite Hst1. repeat split; congruence.
    + destruct Hex as (Hst1 & _ & Hsig1 & Hsq1 & Hnsi1 & _).
      rewrite Hst1. split; congruence.
Qed.

Lemma driven_timers_inv w : driven w -> timers_inv w.
Proof.
  induction 1 as [ | t w w1 _ IH Hex].
  - exact timers_inv_start.
  - exact (timers_inv_expire t w w1 IH Hex).
Qed.

(** In the running application the schedule timer expires only while the
    sequencer is idle. *)
Lemma driven_tick_finds_sequencer_idle w w1 :
  driven w -> expire SignalTimer w = Some w1 ->
  sequence_state w = AcSequenceIdle.
Proof.
  intros Hd Hex. apply driven_timers_inv in Hd.
  apply expire_signal in Hex. destruct Hex as [Harmed _].
  unfold timers_inv in Hd.
  destruct (sequence_state w); [reflexivity | | ];
    destruct Hd as (_ & Hsig & _); congruence.
Qed.

(** ** A schedule tick while the sequencer is busy *)

(** C4, as stated, fails: with the device OFF and the sequencer at its
    second waiting step, a schedule tick transmits the power code and sends
    the sequencer back to its first waiting step. *)
Lemma reentrant_start_counterexample :
  ~ start_guarded reentrant_world /\
  ir_transmissions (fire SignalTimer reentrant_world) = [power_message] /\
  sequence_state (fire SignalTimer reentrant_world) = AcSequenceTurnOnStep1.
Proof.
  split; [ | split; reflexivity].
  intros Hg.
  destruct (Hg eq_refl ltac:(discriminate)) as (Hir & _).
  discriminate Hir.
Qed.

Lemma ir_transmissions_app on nsi rt st sig cd sq tr evs :
  ir_transmissions (mkWorld on nsi rt st sig cd sq (tr ++ evs)) =
  flat_map (fun e => match e with InfraredTransmit m => [m] | _ => [] end) tr
  ++
  flat_map (fun e => match e with InfraredTransmit m => [m] | _ => [] end) evs.
Proof. unfold ir_transmissions; cbn [trace]. apply flat_map_app. Qed.

(** C4, amended.  The OFF branch of the schedule tick has no guard: invoked
    while the sequencer is not idle it transmits the power code, puts the
    sequencer at its first waiting step and restarts the sequence timer with
    1 000 ms, leaving the device state, the schedule interval and the
    remaining time unchanged.  In the running application the schedule timer
    expires only while the sequencer is idle, so such an invocation does not
    occur there. *)
Theorem reentrant_start_restarts_sequence (w d d' : World) :
  ac_is_on w = false ->
  sequence_state w <> AcSequenceIdle ->
  driven d ->
  expire SignalTimer d = Some d' ->
  (ir_transmissions (fire SignalTimer w) =
     ir_transmissions w ++
     [mkInfraredMessage InfraredProtocolNECext 0x6F98 0xE619] /\
   sequence_state (fire SignalTimer w) = AcSequenceTurnOnStep1 /\
   sequence_timer (fire SignalTimer w) = Some 1000 /\
   ac_is_on (fire SignalTimer w) = ac_is_on w /\
   next_signal_interval (fire SignalTimer w) = next_signal_interval w /\
   remaining_time (fire SignalTimer w) = remaining_time w) /\
  sequence_state d = AcSequenceIdle.
Proof.
  intros Hoff _ Hd Hex.
  split; [ | exact (driven_tick_finds_sequencer_idle d d' Hd Hex)].
  rewrite (fire_signal_off w Hoff).
  rewrite ir_transmissions_app.
  cbn [ac_is_on next_signal_interval remaining_time sequence_state
       sequence_timer].
  rewrite Hoff. repeat split; reflexivity.
Qed.

Lemma reentrant_start_restarts_sequence_witness :
  let d := mkWorld true 3600000 3600000 AcSequenceIdle
             (Some 3600000) (Some 60000) None
             (trace (exec ac_app_app_start boot) ++
              [ InfraredTransmit mode_message;
                LogInfo "ir_tx"
                  "Sent infrared signal: address=0x%08lX, command=0x%08lX"
                  [ir_address_1; ir_command_2];
                TimerStart SequenceTimer one_second_interval;
                InfraredTransmit mode_message;
                LogInfo "ir_tx"
                  "Sent infrared signal: address=0x%08lX, command=0x%08lX"
                  [ir_address_1; ir_command_2];
                TimerStop SignalTimer;
                TimerStart SignalTimer one_hour_interval;
                ViewPortUpdate;
                LogInfo "ac_app" "The A/C should be on." [] ]) in
  sequence_state (fire SignalTimer reentrant_world) = AcSequenceTurnOnStep1 /\
  sequence_state d = AcSequenceIdle.
Proof.
  intros d.
  assert (Hd : driven d).
  { apply (driven_expire SequenceTimer
             (fire SequenceTimer
                (set_timer SequenceTimer None (exec ac_app_app_start boot))));
      [ | reflexivity].
    apply (driven_expire SequenceTimer (exec ac_app_app_start boot));
      [ | reflexivity].
    exact driven_start. }
  destruct (reentrant_start_restarts_sequence reentrant_world d
              (fire SignalTimer (set_timer SignalTimer None d))
              eq_refl ltac:(discriminate) Hd eq_refl)
    as [(_ & Hst & _) Hidle].
  split; assumption.
Defined.

(** ** The turn-on sequence *)

Lemma run_without_tick ts : forall w w',
  ~ In SignalTimer ts ->
  (sequence_state w = AcSequenceIdle -> sequence_timer w = None) ->
  run ts w = Some w' ->
  (sequence_expiries ts <= steps_left (sequence_state w))%nat /\
  sequencer_events w' =
    sequencer_events w ++
    firstn (2 * sequence_expiries ts) (pending (sequence_state w)) /\
  (sequence_expiries ts = steps_left (sequence_state w) ->
   sequence_state w' = AcSequenceIdle /\
   sequence_timer w' = None /\
   ac_is_on w' =
     match sequence_state w with
     | AcSequenceIdle => ac_is_on w
     | _ => true
     end).
Proof.
  induction ts as [ | t ts IH]; intros w w' Hno Hidle Hrun.
  - cbn in Hrun. injection Hrun as <-.
    change (sequence_expiries []) with 0%nat.
    cbn [Nat.mul firstn]. rewrite app_nil_r.
    split; [lia | split; [reflexivity | ] ].
    destruct (sequence_state w); cbn [steps_left]; try discriminate.
    intros _. auto.
  - assert (Hno' : ~ In SignalTimer ts) by (intros Hin; apply Hno; now right).
    cbn [run] in Hrun.
    destruct (expire t w) as [w1 | ] eqn:Hex; [ | discriminate].
    destruct t.
    + exfalso. apply Hno. now left.
    + apply expire_countdown in Hex.
      destruct Hex as (Hon1 & Hst1 & _ & Hsq1 & _ & Hev1).
      change (sequence_expiries (CountdownTimer :: ts))
        with (sequence_expiries ts).
      rewrite <- Hst1, <- Hev1, <- Hon1.
      apply IH; [assumption | | assumption].
      rewrite Hst1, Hsq1. exact Hidle.
    + apply expire_sequence in Hex. destruct Hex as [Harmed Hex].
      change (sequence_expiries (SequenceTimer :: ts))
        with (S (sequence_expiries ts)).
      replace (2 * S (sequence_expiries ts))%nat
        with (S (S (2 * sequence_expiries ts)))%nat by lia.
      destruct (sequence_state w) eqn:Hst.
      * exfalso. apply Harmed, Hidle. reflexivity.
      * destruct Hex as (Hst1 & _ & _ & Hsq1 & _ & Hev1).
        destruct (IH w1 w' Hno') as (Hle & Hev & Hend);
          [rewrite Hst1; discriminate | assumption | ].
        rewrite Hst1 in Hle, Hev, Hend. cbn [steps_left] in *.
        split; [lia | ].
        split.
        -- rewrite Hev, Hev1, <- app_assoc. reflexivity.
        -- intros Hk. apply Hend. lia.
      * destruct Hex as (Hst1 & Hon1 & _ & Hsq1 & _ & Hev1).
        destruct (IH w1 w' Hno') as (Hle & Hev & Hend);
          [intros _; assumption | assumption | ].
        rewrite Hst1 in Hle, Hev, Hend. cbn [steps_left] in *.
        split; [lia | ].
        assert (Hk0 : sequence_expiries ts = 0%nat) by lia.
        split.
        -- rewrite Hev, Hev1, Hk0. cbn. rewrite app_nil_r. reflexivity.
        -- intros _. rewrite <- Hon1. apply Hend. assumption.
Qed.

(** C2. Take a schedule tick while the device is OFF and let timers expire
    afterwards in any order, the schedule timer excepted.  The sequence timer
    then expires at most twice, and the transmissions and sequence-timer
    starts made since the tick are an initial part of: power code, start
    1 000 ms, mode code, start 1 000 ms, mode code; the part has two entries
    for the tick and two more per expiry of the sequence timer.  After the
    second expiry the sequencer is idle, its timer is stopped and the device
    is ON.  The two expiries can always be taken, and then exactly the three
    transmissions power, mode, mode have been made. *)
Theorem turn_on_sequence (w w' : World) (ts : list TimerId) :
  ac_is_on w = false ->
  ~ In SignalTimer ts ->
  run ts (fire SignalTimer w) = Some w' ->
  ((sequence_expiries ts <= 2)%nat /\
   sequencer_events w' =
     sequencer_events w ++
     firstn (2 + 2 * sequence_expiries ts) turn_on_events /\
   (sequence_expiries ts = 2%nat ->
    sequence_state w' = AcSequenceIdle /\
    sequence_timer w' = None /\
    ac_is_on w' = true)) /\
  (exists w3,
     run [SequenceTimer; SequenceTimer] (fire SignalTimer w) = Some w3 /\
     ir_transmissions w3 =
       ir_transmissions w ++
       [ mkInfraredMessage InfraredProtocolNECext 0x6F98 0xE619;
         mkInfraredMessage InfraredProtocolNECext 0x6F98 0xF708;
         mkInfraredMessage InfraredProtocolNECext 0x6F98 0xF708 ]).
Proof.
  intros Hoff Hno Hrun. split.
  - rewrite (fire_signal_off w Hoff) in Hrun.
    apply run_without_tick in Hrun; [ | assumption | discriminate].
    cbn [sequence_state steps_left pending] in Hrun.
    destruct Hrun as (Hle & Hev & Hend).
    split; [exact Hle | split; [ | exact Hend] ].
    rewrite Hev. destruct w as [on nsi rt st sig cd sq tr].
    cbn [ac_is_on next_signal_interval remaining_time].
    rewrite sequencer_events_app. unfold sequencer_events; cbn [trace].
    rewrite <- app_assoc. reflexivity.
  - rewrite (fire_signal_off w Hoff).
    destruct w as [on nsi rt st sig cd sq tr].
    eexists. split; [reflexivity | ].
    run_callback. rewrite ir_transmissions_app. reflexivity.
Qed.

Lemma turn_on_sequence_witness :
  exists w',
    run [SequenceTimer; CountdownTimer; SequenceTimer]
      (fire SignalTimer
         (mkWorld false 3600000 3600000 AcSequenceIdle
            None (Some 60000) None [])) = Some w' /\
    sequencer_events w' = turn_on_events /\
    ac_is_on w' = true.
Proof.
  eexists. split; [reflexivity | ].
  match goal with
  | |- sequencer_events ?x = _ /\ _ =>
      destruct (turn_on_sequence
                  (mkWorld false 3600000 3600000 AcSequenceIdle
                     None (Some 60000) None [])
                  x [SequenceTimer; CountdownTimer; SequenceTimer]
                  eq_refl
                  ltac:(cbn; intuition discriminate)
                  eq_refl)
        as [(_ & Hev & Hend) _]
  end.
  split; [exact Hev | exact (proj2 (proj2 (Hend eq_refl)))].
Defined.

(** ** The running application *)

Lemma globals_inv_set_timer t v w :
  globals_inv w -> globals_inv (set_timer t v w).
Proof.
  unfold globals_inv.
  destruct (set_timer_globals t v w) as (-> & -> & -> & -> & _). auto.
Qed.

(** The invariants of the globals hold in the running application too. *)
Lemma driven_globals_inv w : driven w -> globals_inv w.
Proof.
  induction 1 as [ | t w w1 _ IH Hex].
  - unfold globals_inv, UInt32.in_range, UInt32.modulus. vm_compute.
    split; [discriminate | ].
    repeat split; discriminate.
  - unfold expire in Hex. destruct (timer t w); [ | discriminate].
    injection Hex as <-.
    apply globals_inv_fire, globals_inv_set_timer. exact IH.
Qed.

(** Every firmware call of the running application uses the fixed codes and
    intervals. *)
Lemma driven_trace_ok w :
  driven w -> Forall (fun e => event_ok true e \/ event_ok false e) (trace w).
Proof.
  induction 1 as [ | t w w1 _ IH Hex].
  - cbv [exec ac_app_app_start boot]. run_callback.
    repeat first [apply Forall_nil | apply Forall_cons]; cbn; auto 6.
  - unfold expire in Hex. destruct (timer t w); [ | discriminate].
    injection Hex as <-.
    destruct (callback_events_ok t (set_timer t None w))
      as (evs & -> & Hok).
    destruct (set_timer_globals t None w) as (_ & _ & _ & _ & ->).
    apply Forall_app. split; [exact IH | ].
    revert Hok. apply Forall_impl.
    intros e He. destruct (ac_is_on _); auto.
Qed.

(** After the clean-up no timer runs, so no callback is invoked any more,
    whatever step the sequencer was at. *)
Lemma cleanup_stops_all_timers w t :
  expire t (exec ac_app_app_cleanup w) = None /\
  ir_transmissions (exec ac_app_app_cleanup w) = ir_transmissions w.
Proof.
  destruct w as [on nsi rt st sig cd sq tr].
  unfold ac_app_app_cleanup. run_callback.
  split; [destruct t; reflexivity | ].
  rewrite ir_transmissions_app. cbn. apply app_nil_r.
Qed.

(** ** The countdown over several ticks *)

Lemma countdown_next_max rt :
  UInt32.in_range rt -> countdown_next rt = Z.max 0 (rt - 60000).
Proof.
  unfold UInt32.in_range, UInt32.modulus, countdown_next, UInt32.sub,
    UInt32.wrap, UInt32.modulus, one_minute_interval.
  intros Hr. destruct (Z.leb_spec 60000 rt).
  - rewrite Z.mod_small by lia. lia.
  - lia.
Qed.

(** X1. After [n] consecutive countdown ticks the remaining time is the
    original value minus [n] minutes, or 0 once that would be negative: the
    countdown reaches 0 and stays there. *)
Theorem countdown_after_ticks (w : World) (n : nat) :
  UInt32.in_range (remaining_time w) ->
  remaining_time (Nat.iter n (fire CountdownTimer) w) =
  Z.max 0 (remaining_time w - 60000 * Z.of_nat n).
Proof.
  intros Hr. induction n as [ | n IH].
  - cbn [Nat.iter nat_rect]. unfold UInt32.in_range in Hr. lia.
  - rewrite Nat.iter_succ, fire_countdown; cbn [remaining_time].
    rewrite IH, countdown_next_max.
    + lia.
    + unfold UInt32.in_range in *. lia.
Qed.

Lemma countdown_after_ticks_witness :
  let w := mkWorld false 3600000 150000 AcSequenceIdle None None None [] in
  remaining_time (Nat.iter 2 (fire CountdownTimer) w) = 30000 /\
  remaining_time (Nat.iter 5 (fire CountdownTimer) w) = 0.
Proof.
  intros w.
  assert (Hr : UInt32.in_range (remaining_time w))
    by (unfold UInt32.in_range, UInt32.modulus; cbn; lia).
  split.
  - exact (countdown_after_ticks w 2 Hr).
  - exact (countdown_after_ticks w 5 Hr).
Defined.

(** ** The countdown line for every remaining time *)

(** X2. For every 32-bit remaining time the countdown line is decided by the
    whole minutes left: below one minute "Sending signal soon...", from one
    minute to just under two "Next signal in 1 min.", and from two minutes on
    "Next signal in ", the numeral of the minutes rounded down, " mins.".
    The line never exceeds the 31 characters the buffer holds, so it is
    never cut. *)
Theorem countdown_text_every_value (w : World) :
  UInt32.in_range (remaining_time w) ->
  countdown_text w =
    (if remaining_time w <? 60000 then "Sending signal soon..."
     else if remaining_time w <? 120000 then "Next signal in 1 min."
     else ("Next signal in " ++ format_lu (remaining_time w / 60000)
           ++ " mins.")%string) /\
  decimal_value (format_lu (remaining_time w / 60000)) =
    remaining_time w / 60000 /\
  (String.length (countdown_text w) <= 31)%nat.
Proof.
  unfold UInt32.in_range, UInt32.modulus. intros Hr.
  set (rt := remaining_time w) in *.
  assert (Hm : UInt32.in_range (rt / 60000)).
  { unfold UInt32.in_range, UInt32.modulus.
    split; [apply Z.div_pos; lia | ].
    apply Z.div_lt_upper_bound; lia. }
  pose proof (format_lu_decimal _ Hm) as [Hval Hlen].
  pose proof (Z.div_mod rt 60000 ltac:(lia)) as Hdm.
  pose proof (Z.mod_pos_bound rt 60000 ltac:(lia)) as Hmod.
  assert (Htext : countdown_text w =
    (if rt <? 60000 then "Sending signal soon..."
     else if rt <? 120000 then "Next signal in 1 min."
     else ("Next signal in " ++ format_lu (rt / 60000) ++ " mins.")%string)).
  { unfold countdown_text, UInt32.div, one_minute_interval. fold rt.
    destruct (Z.ltb_spec rt 60000) as [Hlt | Hge].
    - replace (rt / 60000) with 0 by lia. reflexivity.
    - destruct (Z.ltb_spec rt 120000) as [Hlt2 | Hge2].
      + replace (rt / 60000) with 1 by lia. reflexivity.
      + destruct (Z.eqb_spec (rt / 60000) 0); [lia | ].
        destruct (Z.eqb_spec (rt / 60000) 1); [lia | ].
        apply snprintf_plural. exact Hm. }
  split; [exact Htext | split; [exact Hval | ] ].
  rewrite Htext.
  destruct (rt <? 60000); [cbn; lia | ].
  destruct (rt <? 120000); [cbn; lia | ].
  rewrite !length_string_app. cbn [String.length]. lia.
Qed.

Lemma countdown_text_every_value_witness :
  countdown_text
    (mkWorld true 3600000 179999 AcSequenceIdle None None None []) =
  "Next signal in 2 mins.".
Proof.
  assert (Hr : UInt32.in_range 179999)
    by (unfold UInt32.in_range, UInt32.modulus; lia).
  exact (proj1 (countdown_text_every_value
                  (mkWorld true 3600000 179999 AcSequenceIdle
                     None None None []) Hr)).
Defined.

(** ** What the screen shows after a schedule tick or a sequence step *)

Lemma render_by_globals w w' :
  ac_is_on w' = ac_is_on w ->
  remaining_time w' = remaining_time w ->
  ac_app_render_callback w' = ac_app_render_callback w.
Proof.
  intros Hon Hrt. unfold ac_app_render_callback, countdown_text.
  rewrite Hon, Hrt. reflexivity.
Qed.

(** X3. Whatever was shown before: after a schedule tick that turns the
    device OFF the screen shows "The A/C should be off." and
    "Next signal in 180 mins."; after the sequence step that completes the
    turn-on it shows "The A/C should be on." and "Next signal in 60 mins.".
    The schedule tick that starts the turn-on sequence and the first
    sequence step leave both lines as they were. *)
Theorem screen_after_callbacks (w1 w2 w3 w4 : World) :
  ac_is_on w1 = true ->
  sequence_state w2 = AcSequenceTurnOnStep2 ->
  ac_is_on w3 = false ->
  sequence_state w4 = AcSequenceTurnOnStep1 ->
  ac_app_render_callback (fire SignalTimer w1) =
    [ CanvasClear; CanvasSetFont FontPrimary;
      CanvasDrawStrAligned 64 32 AlignCenter AlignCenter
        "The A/C should be off.";
      CanvasDrawStrAligned 64 48 AlignCenter AlignCenter
        "Next signal in 180 mins." ] /\
  ac_app_render_callback (fire SequenceTimer w2) =
    [ CanvasClear; CanvasSetFont FontPrimary;
      CanvasDrawStrAligned 64 32 AlignCenter AlignCenter
        "The A/C should be on.";
      CanvasDrawStrAligned 64 48 AlignCenter AlignCenter
        "Next signal in 60 mins." ] /\
  ac_app_render_callback (fire SignalTimer w3) = ac_app_render_callback w3 /\
  ac_app_render_callback (fire SequenceTimer w4) = ac_app_render_callback w4.
Proof.
  intros H1 H2 H3 H4.
  rewrite (fire_signal_on w1 H1), (fire_sequence_step2 w2 H2).
  split; [reflexivity | split; [reflexivity | split] ].
  - apply render_by_globals; rewrite (fire_signal_off w3 H3);
      [cbn [ac_is_on]; symmetry; exact H3 | reflexivity].
  - apply render_by_globals; rewrite (fire_sequence_step1 w4 H4);
      reflexivity.
Qed.

Lemma screen_after_callbacks_witness :
  let w1 := mkWorld true 3600000 0 AcSequenceIdle None None None [] in
  let w2 :=
    mkWorld false 10800000 0 AcSequenceTurnOnStep2 None None None [] in
  let w4 :=
    mkWorld false 10800000 0 AcSequenceTurnOnStep1 None None None [] in
  ac_app_render_callback (fire SignalTimer boot) =
    ac_app_render_callback boot /\
  ac_app_render_callback (fire SequenceTimer w4) =
    ac_app_render_callback w4.
Proof.
  intros w1 w2 w4.
  destruct (screen_after_callbacks w1 w2 boot w4
              eq_refl eq_refl eq_refl eq_refl) as (_ & _ & H3 & H4).
  split; assumption.
Defined.

(** ** The schedule interval in reachable states *)

Lemma interval_inv_fire t w : interval_inv w -> interval_inv (fire t w).
Proof.
  unfold interval_inv. intros (Hval & Hon). destruct t.
  - destruct (ac_is_on w) eqn:E.
    + rewrite (fire_signal_on w E); cbn [ac_is_on next_signal_interval].
      split; [right; reflexivity | discriminate].
    + rewrite (fire_signal_off w E); cbn [ac_is_on next_signal_interval].
      split; [exact Hval | discriminate].
  - rewrite fire_countdown; cbn [ac_is_on next_signal_interval].
    split; assumption.
  - destruct (sequence_state w) eqn:E.
    + rewrite (fire_sequence_idle w E). split; assumption.
    + rewrite (fire_sequence_step1 w E); cbn [ac_is_on next_signal_interval].
      split; assumption.
    + rewrite (fire_sequence_step2 w E); cbn [ac_is_on next_signal_interval].
      split; [left; reflexivity | reflexivity].
Qed.

Lemma reachable_interval_inv w : reachable w -> interval_inv w.
Proof.
  induction 1 as [w (Hon & Hnsi & _) | t w _ IH].
  - unfold interval_inv. rewrite Hon, Hnsi.
    split; [left; reflexivity | discriminate].
  - apply interval_inv_fire; assumption.
Qed.

(** X4. In every state reached from the initial globals by any sequence of
    callbacks the schedule interval is one hour or three hours, and it is
    one hour whenever the device is ON; so the countdown never shows more
    than 180 minutes, and never more than 60 while the device is ON. *)
Theorem schedule_interval_values (w : World) :
  reachable w ->
  (next_signal_interval w = 3600000 \/ next_signal_interval w = 10800000) /\
  (ac_is_on w = true -> next_signal_interval w = 3600000) /\
  0 <= remaining_time w / 60000 <= 180 /\
  (ac_is_on w = true -> remaining_time w / 60000 <= 60).
Proof.
  intros Hr.
  destruct (reachable_interval_inv w Hr) as (Hval & Hon).
  destruct (reachable_globals_inv w Hr) as (_ & Hrt & _).
  split; [exact Hval | split; [exact Hon | ] ].
  split.
  - split; [apply Z.div_pos; lia | ].
    apply Z.div_le_upper_bound; lia.
  - intros E. specialize (Hon E).
    apply Z.div_le_upper_bound; lia.
Qed.

Lemma schedule_interval_values_witness :
  let w := fire SignalTimer
             (fire SequenceTimer (fire SequenceTimer (fire SignalTimer boot)))
  in
  next_signal_interval w = 3600000 \/ next_signal_interval w = 10800000.
Proof.
  intros w. apply schedule_interval_values.
  repeat apply reachable_fire. apply reachable_init.
  repeat split; reflexivity.
Defined.

(** ** Which timers run in the running application *)

Lemma expire_keeps_countdown_running t w w1 :
  expire t w = Some w1 ->
  countdown_timer w = Some one_minute_interval ->
  countdown_timer w1 = Some one_minute_interval.
Proof.
  intros Hex Hcd. destruct t.
  - unfold expire in Hex. destruct (timer SignalTimer w); [ | discriminate].
    injection Hex as <-.
    assert (Hcd' : countdown_timer (set_timer SignalTimer None w) =
                   Some one_minute_interval)
      by (destruct w; exact Hcd).
    destruct (ac_is_on (set_timer SignalTimer None w)) eqn:E.
    + rewrite (fire_signal_on _ E). exact Hcd'.
    + rewrite (fire_signal_off _ E). exact Hcd'.
  - unfold expire in Hex.
    destruct (timer CountdownTimer w); [ | discriminate].
    injection Hex as <-. rewrite fire_countdown. reflexivity.
  - unfold expire in Hex.
    destruct (timer SequenceTimer w); [ | discriminate].
    injection Hex as <-.
    assert (Hcd' : countdown_timer (set_timer SequenceTimer None w) =
                   Some one_minute_interval)
      by (destruct w; exact Hcd).
    destruct (sequence_state (set_timer SequenceTimer None w)) eqn:E.
    + rewrite (fire_sequence_idle _ E). exact Hcd'.
    + rewrite (fire_sequence_step1 _ E). exact Hcd'.
    + rewrite (fire_sequence_step2 _ E). exact Hcd'.
Qed.

Lemma driven_countdown_running w :
  driven w -> countdown_timer w = Some one_minute_interval.
Proof.
  induction 1 as [ | t w w1 _ IH Hex].
  - reflexivity.
  - exact (expire_keeps_countdown_running t w w1 Hex IH).
Qed.

(** X5. In every state of the running application the countdown timer runs
    with 60 000 ms and exactly one of the other two timers runs: while the
    sequencer is idle the schedule timer, with the current schedule
    interval; while it is waiting the sequence timer, with 1 000 ms.  So
    there is always a timer left to expire. *)
Theorem running_timers (w : World) :
  driven w ->
  countdown_timer w = Some 60000 /\
  match sequence_state w with
  | AcSequenceIdle =>
      signal_timer w = Some (next_signal_interval w) /\
      sequence_timer w = None
  | _ =>
      signal_timer w = None /\
      sequence_timer w = Some 1000
  end.
Proof.
  intros Hd. split; [exact (driven_countdown_running w Hd) | ].
  pose proof (driven_timers_inv w Hd) as Hinv. unfold timers_inv in Hinv.
  destruct (sequence_state w).
  - destruct Hinv as (Hsq & Hsig). split; assumption.
  - destruct Hinv as (Hsq & Hsig & _). split; assumption.
  - destruct Hinv as (Hsq & Hsig & _). split; assumption.
Qed.

Lemma running_timers_witness :
  countdown_timer (exec ac_app_app_start boot) = Some 60000 /\
  sequence_timer (exec ac_app_app_start boot) = Some 1000.
Proof.
  destruct (running_timers (exec ac_app_app_start boot) driven_start)
    as (Hcd & Hrest).
  split; [exact Hcd | exact (proj2 Hrest)].
Defined.

(** ** The codes the air conditioner receives *)

Lemma fire_ir t w :
  ir_transmissions (fire t w) = ir_transmissions w ++ transmitted t w.
Proof.
  destruct t; unfold transmitted.
  - destruct (ac_is_on w) eqn:E.
    + rewrite (fire_signal_on w E), ir_transmissions_app. reflexivity.
    + rewrite (fire_signal_off w E), ir_transmissions_app. reflexivity.
  - rewrite fire_countdown, ir_transmissions_app.
    unfold countdown_log.
    destruct (_ =? 1); cbn [flat_map app]; rewrite !app_nil_r; reflexivity.
  - destruct (sequence_state w) eqn:E.
    + rewrite (fire_sequence_idle w E). now rewrite app_nil_r.
    + rewrite (fire_sequence_step1 w E), ir_transmissions_app. reflexivity.
    + rewrite (fire_sequence_step2 w E), ir_transmissions_app. reflexivity.
Qed.

Lemma expire_ir t w w1 :
  expire t w = Some w1 ->
  ir_transmissions w1 = ir_transmissions w ++ transmitted t w.
Proof.
  unfold expire. destruct (timer t w); [ | discriminate].
  intros [= <-]. rewrite fire_ir.
  destruct w, t; reflexivity.
Qed.

Lemma concat_repeat_snoc {A : Type} (c : list A) k :
  List.concat (repeat c k) ++ c = List.concat (repeat c (S k)).
Proof.
  induction k as [ | k IH]; cbn [repeat List.concat].
  - now rewrite app_nil_r.
  - rewrite <- app_assoc, IH. reflexivity.
Qed.

Lemma expire_phase t w w1 :
  timers_inv w ->
  expire t w = Some w1 ->
  (firstn (phase w) power_cycle ++ transmitted t w =
   firstn (phase w1) power_cycle) \/
  (firstn (phase w) power_cycle ++ transmitted t w = power_cycle /\
   phase w1 = 0%nat).
Proof.
  unfold timers_inv, phase. intros Hinv Hex. destruct t.
  - apply expire_signal in Hex. destruct Hex as [Harmed Hex].
    destruct (sequence_state w) eqn:Hst;
      try (destruct Hinv as (_ & Hsig & _); congruence).
    destruct (ac_is_on w);
      destruct Hex as (Hon1 & Hst1 & _); rewrite Hst1, ?Hon1.
    + right. split; reflexivity.
    + left. reflexivity.
  - apply expire_countdown in Hex.
    destruct Hex as (Hon1 & Hst1 & _). rewrite Hst1, Hon1.
    left. apply app_nil_r.
  - apply expire_sequence in Hex. destruct Hex as [Harmed Hex].
    unfold transmitted.
    destruct (sequence_state w) eqn:Hst.
    + destruct Hinv as (Hsq & _). congruence.
    + destruct Hex as (Hst1 & _). rewrite Hst1. left. reflexivity.
    + destruct Hex as (Hst1 & Hon1 & _). rewrite Hst1, Hon1.
      left. reflexivity.
Qed.

(** X6. In every state of the running application the codes transmitted so
    far are some number of whole power cycles (power, mode, mode, power)
    followed by the beginning of the next one, and the length of that
    beginning is told by the state: nothing when the device is OFF and the
    sequencer idle, one code at the first waiting step, two at the second,
    three when the device is ON. *)
Theorem transmissions_follow_power_cycle (w : World) :
  driven w ->
  exists k : nat,
    ir_transmissions w =
    List.concat (repeat power_cycle k) ++ firstn (phase w) power_cycle.
Proof.
  induction 1 as [ | t w w1 Hd IH Hex].
  - exists 0%nat. reflexivity.
  - destruct IH as [k Hk].
    rewrite (expire_ir t w w1 Hex), Hk, <- app_assoc.
    destruct (expire_phase t w w1 (driven_timers_inv w Hd) Hex)
      as [Hnext | (Hfull & Hzero)].
    + exists k. rewrite Hnext. reflexivity.
    + exists (S k). rewrite Hfull, Hzero, concat_repeat_snoc.
      cbn [firstn]. now rewrite app_nil_r.
Qed.

Lemma transmissions_follow_power_cycle_witness :
  exists k : nat,
    ir_transmissions (exec ac_app_app_start boot) =
    List.concat (repeat power_cycle k) ++
    firstn (phase (exec ac_app_app_start boot)) power_cycle.
Proof.
  exact (transmissions_follow_power_cycle _ driven_start).
Defined.

(** ** The remaining time decides nothing *)

Lemma control_fire t w1 w2 :
  control w1 = control w2 -> control (fire t w1) = control (fire t w2).
Proof.
  unfold control. intros [= Hon Hnsi Hst Hsig Hcd Hsq Hir].
  assert (Hfi : ir_transmissions (fire t w1) = ir_transmissions (fire t w2)).
  { rewrite !fire_ir, Hir. f_equal.
    unfold transmitted. rewrite Hst. reflexivity. }
  rewrite Hfi. destruct t.
  - destruct (ac_is_on w2) eqn:E2.
    + rewrite (fire_signal_on w1 Hon), (fire_signal_on w2 E2).
      cbn [ac_is_on next_signal_interval sequence_state signal_timer
           countdown_timer sequence_timer]. congruence.
    + rewrite (fire_signal_off w1 Hon), (fire_signal_off w2 E2).
      cbn [ac_is_on next_signal_interval sequence_state signal_timer
           countdown_timer sequence_timer]. congruence.
  - rewrite !fire_countdown.
    cbn [ac_is_on next_signal_interval sequence_state signal_timer
         countdown_timer sequence_timer]. congruence.
  - destruct (sequence_state w2) eqn:E2.
    + rewrite (fire_sequence_idle w1 Hst), (fire_sequence_idle w2 E2).
      congruence.
    + rewrite (fire_sequence_step1 w1 Hst), (fire_sequence_step1 w2 E2).
      cbn [ac_is_on next_signal_interval sequence_state signal_timer
           countdown_timer sequence_timer]. congruence.
    + rewrite (fire_sequence_step2 w1 Hst), (fire_sequence_step2 w2 E2).
      cbn [ac_is_on next_signal_interval sequence_state signal_timer
           countdown_timer sequence_timer]. congruence.
Qed.

Lemma control_set_timer t v w1 w2 :
  control w1 = control w2 ->
  control (set_timer t v w1) = control (set_timer t v w2).
Proof.
  destruct w1, w2. unfold control, ir_transmissions.
  cbn [ac_is_on next_signal_interval sequence_state signal_timer
       countdown_timer sequence_timer trace].
  intros [= -> -> -> -> -> -> Hir].
  destruct t; cbn [set_timer ac_is_on next_signal_interval sequence_state
    signal_timer countdown_timer sequence_timer trace]; now rewrite Hir.
Qed.

Lemma control_expire t w1 w2 :
  control w1 = control w2 ->
  option_map control (expire t w1) = option_map control (expire t w2).
Proof.
  intros Hc. unfold expire.
  assert (Ht : timer t w1 = timer t w2).
  { unfold control in Hc. injection Hc as _ _ _ Hsig Hcd Hsq _.
    destruct t; assumption. }
  rewrite Ht. destruct (timer t w2); [ | reflexivity].
  cbn [option_map]. f_equal.
  apply control_fire, control_set_timer, Hc.
Qed.

(** X7. The remaining time, the redraws and the log lines decide nothing:
    two states that agree on the device state, the schedule interval, the
    sequencer state, the three timers and the codes transmitted so far allow
    the same timer expiries and agree on all of these again after any run of
    expiries, whatever their remaining times are. *)
Theorem remaining_time_decides_nothing (w1 w2 : World)
    (ts : list TimerId) :
  control w1 = control w2 ->
  option_map control (run ts w1) = option_map control (run ts w2).
Proof.
  revert w1 w2. induction ts as [ | t ts IH]; intros w1 w2 Hc.
  - cbn [run option_map]. now rewrite Hc.
  - cbn [run]. pose proof (control_expire t w1 w2 Hc) as Hex.
    destruct (expire t w1) as [w1' | ], (expire t w2) as [w2' | ];
      cbn [option_map] in Hex; try discriminate.
    + apply IH. congruence.
    + reflexivity.
Qed.

Lemma remaining_time_decides_nothing_witness :
  let w1 := mkWorld true 3600000 0 AcSequenceIdle
              (Some 3600000) (Some 60000) None [] in
  let w2 := mkWorld true 3600000 3540000 AcSequenceIdle
              (Some 3600000) (Some 60000) None [ViewPortUpdate] in
  option_map control (run [CountdownTimer; SignalTimer; SignalTimer] w1) =
  option_map control (run [CountdownTimer; SignalTimer; SignalTimer] w2).
Proof.
  intros w1 w2.
  exact (remaining_time_decides_nothing w1 w2
           [CountdownTimer; SignalTimer; SignalTimer] eq_refl).
Defined.

(** ** After the clean-up *)

(** X8. The clean-up stops all three timers whatever state it finds, also in
    the middle of a turn-on sequence: afterwards no timer expiry can be
    taken, so no callback runs and the remaining steps of a sequence are not
    sent.  The clean-up itself transmits nothing and leaves the globals as
    they were. *)
Theorem cleanup_ends_all_activity (w : World) (t : TimerId)
    (ts : list TimerId) :
  run (t :: ts) (exec ac_app_app_cleanup w) = None /\
  signal_timer (exec ac_app_app_cleanup w) = None /\
  countdown_timer (exec ac_app_app_cleanup w) = None /\
  sequence_timer (exec ac_app_app_cleanup w) = None /\
  ir_transmissions (exec ac_app_app_cleanup w) = ir_transmissions w /\
  ac_is_on (exec ac_app_app_cleanup w) = ac_is_on w /\
  sequence_state (exec ac_app_app_cleanup w) = sequence_state w /\
  next_signal_interval (exec ac_app_app_cleanup w) = next_signal_interval w /\
  remaining_time (exec ac_app_app_cleanup w) = remaining_time w.
Proof.
  destruct (cleanup_stops_all_timers w t) as [Hex Hir].
  split; [cbn [run]; now rewrite Hex | ].
  split; [ | split; [ | split; [ | split; [exact Hir | ] ] ] ];
    destruct w; repeat split; reflexivity.
Qed.

(** ** Input events and leaving the event loop *)

Lemma event_loop_no_back q :
  forallb (fun e => negb (InputKey_eqb (key e) InputKeyBack)) q = true ->
  ac_app_event_loop q = None.
Proof.
  induction q as [ | e q IH]; cbn [forallb ac_app_event_loop].
  - reflexivity.
  - intros H. apply andb_prop in H. destruct H as [He Hq].
    destruct (InputKey_eqb (key e) InputKeyBack); [discriminate | ].
    apply IH. exact Hq.
Qed.

(** X9. The event loop is left at the first queued event whose key is Back,
    whatever its type, with the events after it still queued; events before
    it are taken and dropped.  If no queued event has the Back key the loop
    takes them all and waits. *)
Theorem event_loop_leaves_at_first_back (pre post : FuriMessageQueue)
    (e : InputEvent) :
  forallb (fun e => negb (InputKey_eqb (key e) InputKeyBack)) pre = true ->
  ac_app_event_loop pre = None /\
  (key e = InputKeyBack -> ac_app_event_loop (pre ++ e :: post) = Some post).
Proof.
  intros Hpre. split; [apply event_loop_no_back; exact Hpre | ].
  intros Hk. induction pre as [ | p pre IH]; cbn [app ac_app_event_loop].
  - rewrite Hk. reflexivity.
  - cbn [forallb] in Hpre. apply andb_prop in Hpre.
    destruct Hpre as [Hp Hpre].
    destruct (InputKey_eqb (key p) InputKeyBack); [discriminate | ].
    apply IH. exact Hpre.
Qed.

Lemma event_loop_leaves_at_first_back_witness :
  ac_app_event_loop
    [ mkInputEvent InputTypeShort (InputKeyOther 0);
      mkInputEvent (InputTypeOther 1) InputKeyBack;
      mkInputEvent InputTypeShort InputKeyBack ] =
  Some [mkInputEvent InputTypeShort InputKeyBack].
Proof.
  exact (proj2 (event_loop_leaves_at_first_back
                  [mkInputEvent InputTypeShort (InputKeyOther 0)]
                  [mkInputEvent InputTypeShort InputKeyBack]
                  (mkInputEvent (InputTypeOther 1) InputKeyBack)
                  eq_refl) eq_refl).
Defined.

Lemma input_callback_exit e q w :
  is_exit_press e = true ->
  ac_app_input_callback e q w =
  (furi_message_queue_put q (mkInputEvent InputTypeShort InputKeyBack),
   exec (FURI_LOG_I "ac_app" "Received input to close the application." [])
     w).
Proof.
  unfold is_exit_press, ac_app_input_callback. intros ->.
  destruct w; reflexivity.
Qed.

Lemma input_callback_ignore e q w :
  is_exit_press e = false ->
  ac_app_input_callback e q w = (Some q, w).
Proof.
  unfold is_exit_press, ac_app_input_callback. intros ->. reflexivity.
Qed.

(** X10. The input callback queues an event only for a short press of the
    Back key, and then it queues a short Back press, provided the queue
    holds fewer than eight events; on a full queue it waits.  In both cases
    it adds one log line to the trace and changes nothing else.  Every other
    event, a long Back press included, leaves the queue, the globals, the
    timers and the trace as they were.  A queue filled by the callback alone
    therefore makes the event loop leave at its first event. *)
Theorem input_callback_queues_exit_only (e : InputEvent)
    (q : FuriMessageQueue) (w : World) :
  (is_exit_press e = false -> ac_app_input_callback e q w = (Some q, w)) /\
  (is_exit_press e = true ->
   fst (ac_app_input_callback e q w) =
     (if (List.length q <? 8)%nat
      then Some (q ++ [mkInputEvent InputTypeShort InputKeyBack])
      else None) /\
   control (snd (ac_app_input_callback e q w)) = control w /\
   remaining_time (snd (ac_app_input_callback e q w)) = remaining_time w /\
   snd (ac_app_input_callback e q w) =
     mkWorld (ac_is_on w) (next_signal_interval w) (remaining_time w)
       (sequence_state w) (signal_timer w) (countdown_timer w)
       (sequence_timer w)
       (trace w ++
        [LogInfo "ac_app" "Received input to close the application." []])) /\
  (is_exit_press e = true ->
   fst (ac_app_input_callback e [] w) =
     Some [mkInputEvent InputTypeShort InputKeyBack] /\
   ac_app_event_loop [mkInputEvent InputTypeShort InputKeyBack] = Some []).
Proof.
  split; [apply input_callback_ignore | ].
  split; intros He; rewrite (input_callback_exit _ _ _ He).
  - split; [reflexivity | ].
    destruct w. unfold control, ir_transmissions.
    cbn. rewrite flat_map_app. cbn. rewrite app_nil_r.
    repeat split; reflexivity.
  - split; reflexivity.
Qed.

Lemma input_callback_queues_exit_only_witness :
  ac_app_input_callback (mkInputEvent (InputTypeOther 3) InputKeyBack)
    [] boot = (Some [], boot) /\
  fst (ac_app_input_callback (mkInputEvent InputTypeShort InputKeyBack)
         [] boot) =
  Some [mkInputEvent InputTypeShort InputKeyBack].
Proof.
  split.
  - exact (proj1 (input_callback_queues_exit_only
                    (mkInputEvent (InputTypeOther 3) InputKeyBack) [] boot)
             eq_refl).
  - exact (proj1 (proj2 (proj2 (input_callback_queues_exit_only
                    (mkInputEvent InputTypeShort InputKeyBack) [] boot))
             eq_refl)).
Defined.

(** ** The whole application *)

Lemma session_timer t hs w :
  ac_app_session (TimerExpires t :: hs) [] w =
  match expire t w with
  | Some w' => ac_app_session hs [] w'
  | None => ac_app_session hs [] w
  end.
Proof. reflexivity. Qed.

Lemma session_ignored_input e hs w :
  is_exit_press e = false ->
  ac_app_session (InputArrives e :: hs) [] w = ac_app_session hs [] w.
Proof.
  intros He. cbn [ac_app_session].
  rewrite (input_callback_ignore e [] w He). reflexivity.
Qed.

Lemma session_exit_press e hs w :
  is_exit_press e = true ->
  ac_app_session (InputArrives e :: hs) [] w =
  (exec ac_app_app_cleanup
     (exec (FURI_LOG_I "ac_app" "Received input to close the application." [])
        w),
   true).
Proof.
  intros He. cbn [ac_app_session].
  rewrite (input_callback_exit e [] w He). reflexivity.
Qed.

Lemma session_exited hs : forall w,
  snd (ac_app_session hs [] w) = existsb is_exit_happening hs.
Proof.
  induction hs as [ | [t | e] hs IH]; intros w.
  - reflexivity.
  - rewrite session_timer. cbn [existsb is_exit_happening orb].
    destruct (expire t w); apply IH.
  - cbn [existsb is_exit_happening].
    destruct (is_exit_press e) eqn:He.
    + rewrite (session_exit_press e hs w He). reflexivity.
    + rewrite (session_ignored_input e hs w He). apply IH.
Qed.

Lemma session_running hs : forall w,
  existsb is_exit_happening hs = false ->
  ac_app_session hs [] w =
    ac_app_session (filter is_timer_happening hs) [] w /\
  (driven w -> driven (fst (ac_app_session hs [] w))).
Proof.
  induction hs as [ | [t | e] hs IH]; intros w Hno.
  - split; [reflexivity | auto].
  - cbn [existsb is_exit_happening orb] in Hno.
    cbn [filter is_timer_happening]. rewrite !session_timer.
    destruct (expire t w) as [w' | ] eqn:Hex.
    + destruct (IH w' Hno) as [Heq Hd]. split; [exact Heq | ].
      intros Hw. apply Hd. exact (driven_expire t w w' Hw Hex).
    + apply IH. exact Hno.
  - cbn [existsb is_exit_happening] in Hno.
    apply orb_false_elim in Hno. destruct Hno as [He Hno].
    cbn [filter is_timer_happening].
    rewrite (session_ignored_input e hs w He). apply IH. exact Hno.
Qed.


(** X11. The application exits exactly when a short press of the Back key is
    among the delivered input events; no timer expiry, no other key and no
    other kind of press of the Back key makes it exit. *)
Theorem app_exits_iff_short_back_press (hs : list Happening) :
  snd (ac_app_app hs) = existsb is_exit_happening hs.
Proof. apply session_exited. Qed.

(** X12. As long as no short press of the Back key is delivered, input
    events have no effect at all: the application is in the state the timer
    expiries alone lead to, which is a state of the running application, and
    it has not exited. *)
Theorem app_ignores_other_input (hs : list Happening) :
  existsb is_exit_happening hs = false ->
  ac_app_app hs = ac_app_app (filter is_timer_happening hs) /\
  driven (fst (ac_app_app hs)) /\
  snd (ac_app_app hs) = false.
Proof.
  intros Hno. unfold ac_app_app.
  destruct (session_running hs (exec ac_app_app_start boot) Hno)
    as [Heq Hd].
  split; [exact Heq | split; [exact (Hd driven_start) | ] ].
  rewrite session_exited. exact Hno.
Qed.

Lemma app_ignores_other_input_witness :
  let hs := [ TimerExpires SequenceTimer;
              InputArrives (mkInputEvent (InputTypeOther 1) InputKeyBack);
              InputArrives (mkInputEvent InputTypeShort (InputKeyOther 4));
              TimerExpires SequenceTimer ] in
  ac_app_app hs =
  ac_app_app [TimerExpires SequenceTimer; TimerExpires SequenceTimer].
Proof.
  intros hs. exact (proj1 (app_ignores_other_input hs eq_refl)).
Defined.



(** ** Transitions of the device state *)

(** C3. In a reachable state the device is OFF whenever the sequencer is not
    idle, so the device state is never that of a sequence in progress.
    What one callback invocation from a reachable state does to the device
    state is decided by the callback and the state it finds:
    - a schedule tick that finds the device ON sends the power code and
      leaves the device OFF, the sequencer idle before and after;
    - a schedule tick that finds the device OFF sends the power code, puts
      the sequencer at its first waiting step and leaves the device OFF;
    - a countdown tick sends nothing and changes neither the device state
      nor the sequencer;
    - a sequence step that finds the sequencer idle changes nothing at all;
    - a sequence step at the first waiting step sends the mode code, moves
      to the second waiting step and leaves the device OFF;
    - a sequence step at the second waiting step finds the device OFF,
      sends the mode code, returns the sequencer to idle and leaves the
      device ON.
    Hence every step is an ON to OFF transition at a tick, the OFF to ON
    transition at the one step where the sequencer returns to idle, or a step
    that keeps the device state and does not return the sequencer to
    idle. *)
Theorem device_state_transitions (w : World) (t : TimerId) :
  reachable w ->
  (sequence_state w <> AcSequenceIdle -> ac_is_on w = false) /\
  match t with
  | SignalTimer =>
      if ac_is_on w then
        ac_is_on (fire t w) = false /\
        sequence_state w = AcSequenceIdle /\
        sequence_state (fire t w) = AcSequenceIdle /\
        ir_transmissions (fire t w) =
          ir_transmissions w ++
          [mkInfraredMessage InfraredProtocolNECext 0x6F98 0xE619]
      else
        ac_is_on (fire t w) = false /\
        sequence_state (fire t w) = AcSequenceTurnOnStep1 /\
        ir_transmissions (fire t w) =
          ir_transmissions w ++
          [mkInfraredMessage InfraredProtocolNECext 0x6F98 0xE619]
  | CountdownTimer =>
      ac_is_on (fire t w) = ac_is_on w /\
      sequence_state (fire t w) = sequence_state w /\
      ir_transmissions (fire t w) = ir_transmissions w
  | SequenceTimer =>
      match sequence_state w with
      | AcSequenceIdle => fire t w = w
      | AcSequenceTurnOnStep1 =>
          ac_is_on w = false /\
          ac_is_on (fire t w) = false /\
          sequence_state (fire t w) = AcSequenceTurnOnStep2 /\
          ir_transmissions (fire t w) =
            ir_transmissions w ++
            [mkInfraredMessage InfraredProtocolNECext 0x6F98 0xF708]
      | AcSequenceTurnOnStep2 =>
          ac_is_on w = false /\
          ac_is_on (fire t w) = true /\
          sequence_state (fire t w) = AcSequenceIdle /\
          ir_transmissions (fire t w) =
            ir_transmissions w ++
            [mkInfraredMessage InfraredProtocolNECext 0x6F98 0xF708]
      end
  end /\
  ((t = SignalTimer /\
    ac_is_on w = true /\ ac_is_on (fire t w) = false /\
    sequence_state w = AcSequenceIdle /\
    sequence_state (fire t w) = AcSequenceIdle) \/
   (t = SequenceTimer /\
    ac_is_on w = false /\ ac_is_on (fire t w) = true /\
    sequence_state w = AcSequenceTurnOnStep2 /\
    sequence_state (fire t w) = AcSequenceIdle) \/
   (ac_is_on (fire t w) = ac_is_on w /\
    (sequence_state (fire t w) = AcSequenceIdle ->
     sequence_state w = AcSequenceIdle))).
Proof.
  intros Hr. apply reachable_globals_inv in Hr.
  destruct Hr as (Hidle & _).
  assert (Hoff : sequence_state w <> AcSequenceIdle -> ac_is_on w = false).
  { intros Hne. destruct (ac_is_on w); [ | reflexivity].
    exfalso. apply Hne, Hidle. reflexivity. }
  split; [exact Hoff | ].
  pose proof (fire_ir t w) as Hir. unfold transmitted in Hir.
  destruct t.
  - destruct (ac_is_on w) eqn:Hon.
    + rewrite Hir. rewrite (fire_signal_on w Hon);
        cbn [ac_is_on sequence_state].
      rewrite (Hidle eq_refl).
      split; [repeat split; reflexivity | ].
      left. repeat split; reflexivity.
    + rewrite Hir. rewrite (fire_signal_off w Hon);
        cbn [ac_is_on sequence_state].
      split; [repeat split; reflexivity | ].
      right; right. split; [reflexivity | discriminate].
  - rewrite Hir, app_nil_r. rewrite fire_countdown;
      cbn [ac_is_on sequence_state].
    split; [repeat split; reflexivity | ].
    right; right. split; [reflexivity | auto].
  - destruct (sequence_state w) eqn:Hst.
    + rewrite (fire_sequence_idle w Hst).
      split; [reflexivity | ].
      right; right. split; [reflexivity | intros _; reflexivity].
    + rewrite Hir. rewrite (fire_sequence_step1 w Hst);
        cbn [ac_is_on sequence_state].
      rewrite (Hoff ltac:(discriminate)).
      split; [repeat split; reflexivity | ].
      right; right. split; [reflexivity | discriminate].
    + rewrite Hir. rewrite (fire_sequence_step2 w Hst);
        cbn [ac_is_on sequence_state].
      rewrite (Hoff ltac:(discriminate)).
      split; [repeat split; reflexivity | ].
      right; left. repeat split; reflexivity.
Qed.

Lemma device_state_transitions_witness :
  let off := fire SequenceTimer (fire SignalTimer boot) in
  let on := fire SequenceTimer off in
  (ac_is_on off = false /\ ac_is_on (fire SequenceTimer off) = true) /\
  ac_is_on (fire SignalTimer on) = false.
Proof.
  intros off on.
  assert (Hoff : reachable off).
  { repeat apply reachable_fire. apply reachable_init.
    repeat split; reflexivity. }
  assert (Hon : reachable on) by (apply reachable_fire; exact Hoff).
  destruct (device_state_transitions off SequenceTimer Hoff)
    as (_ & Hstep & _).
  destruct (device_state_transitions on SignalTimer Hon)
    as (_ & Htick & _).
  destruct Hstep as (H1 & H2 & _). destruct Htick as (H3 & _).
  split; [split; [exact H1 | exact H2] | exact H3].
Defined.
